(** * Study-session engine of the flashcard application

    A shallow embedding of the study-session code of the two variants of
    the application, [fc4.py] and [flashcard_app_improved.py], and the
    properties of the session state machine established on it.

    Conventions of the embedding.
    - The session fields that the Python code keeps on the application
      object ([current_card_index], [show_answer], [study_cards],
      [known_cards], ...) are the fields of a record [app]; a handler is a
      function from [app] to [app], paired with the screen it ends on
      where drawing that screen changes the state.
    - A handler that can raise [IndexError] returns [option app].
    - [current_card_index] is a [nat]: it is initialised to [0], incremented,
      and decremented only under the guard [> 0].
    - Widgets are not modelled, but which buttons a screen carries is: a
      click reaches its handler only when the screen has the button.
    - Percentages are Python floats; they are modelled by the rational
      number the float expression denotes in exact arithmetic. *)

From Stdlib Require Import QArith.
From stdpp Require Import base gmap strings list pretty.

Close Scope Q_scope.
Local Open Scope nat_scope.

(** ** Cards and the deck store *)

(** A card dictionary; only the two text fields take part in a session. *)
Record card := Card { question : string; answer : string }.

(** ** [random.shuffle]: the Fisher-Yates loop of the Python library

    [for i in reversed(range(1, len(x))): j = randbelow(i + 1);
     x[i], x[j] = x[j], x[i]].
    The random source is a function giving the raw draw made at step [i];
    [randbelow (i + 1)] is that draw reduced below [i + 1]. *)

Definition randbelow (draw : nat → nat) (i : nat) : nat := draw i `mod` (i + 1).

(** [x[i], x[j] = x[j], x[i]]: both reads happen before the two writes.
    The loop below only swaps positions of the list; outside of it, where
    Python raises [IndexError], the list is returned as it is. *)
Definition swap {A} (i j : nat) (x : list A) : list A :=
  match x !! j, x !! i with
  | Some xj, Some xi => <[j:=xi]> (<[i:=xj]> x)
  | _, _ => x
  end.

Fixpoint shuffle_loop {A} (draw : nat → nat) (i : nat) (x : list A) : list A :=
  match i with
  | 0 => x
  | S i' => shuffle_loop draw i' (swap i (randbelow draw i) x)
  end.

Definition shuffle {A} (draw : nat → nat) (x : list A) : list A :=
  shuffle_loop draw (length x - 1) x.

(** ** The first variant: [fc4.py] *)

Module Fc4.

Inductive mode := sequential | random.

(** One entry of [self.study_cards]. *)
Record study_card := StudyCard {
  original_index : nat;
  card_data : card;
  card_id : string
}.

(** The fields of the application object that a study session touches.
    [decks] is [self.data["decks"]] restricted to the ["cards"] entry of
    each deck; [current_deck] is [None] or a deck name. *)
Record app := App {
  decks : gmap string (list card);
  current_deck : option string;
  current_card_index : nat;
  study_mode : mode;
  show_answer : bool;
  study_cards : list study_card;
  known_cards : gset string
}.

Definition set_current_deck (d : option string) (a : app) : app :=
  App (decks a) d (current_card_index a) (study_mode a) (show_answer a)
      (study_cards a) (known_cards a).
Definition set_current_card_index (i : nat) (a : app) : app :=
  App (decks a) (current_deck a) i (study_mode a) (show_answer a)
      (study_cards a) (known_cards a).
Definition set_study_mode (m : mode) (a : app) : app :=
  App (decks a) (current_deck a) (current_card_index a) m (show_answer a)
      (study_cards a) (known_cards a).
Definition set_show_answer (b : bool) (a : app) : app :=
  App (decks a) (current_deck a) (current_card_index a) (study_mode a) b
      (study_cards a) (known_cards a).
Definition set_study_cards (q : list study_card) (a : app) : app :=
  App (decks a) (current_deck a) (current_card_index a) (study_mode a)
      (show_answer a) q (known_cards a).
Definition set_known_cards (k : gset string) (a : app) : app :=
  App (decks a) (current_deck a) (current_card_index a) (study_mode a)
      (show_answer a) (study_cards a) k.

(** [get_deck_cards]: the cards of a deck, [[]] for a name that is not a
    deck ([None] is never one). *)
Definition get_deck_cards (a : app) (deck_name : option string) : list card :=
  match deck_name with
  | Some d => default [] (decks a !! d)
  | None => []
  end.

(** The text an f-string gives for [self.current_deck]. *)
Definition deck_text (d : option string) : string := default "None" d.

(** [prepare_study_cards]: one entry per card of the current deck, in deck
    order, and an empty known set. *)
Definition make_study_card (deck : option string) (i : nat) (c : card) : study_card :=
  StudyCard i c (deck_text deck +:+ "_" +:+ pretty i).

Definition prepare_study_cards (a : app) : app :=
  let original_cards := get_deck_cards a (current_deck a) in
  set_known_cards ∅
    (set_study_cards (imap (make_study_card (current_deck a)) original_cards) a).

(** The summary that [study_complete] displays: the two counts, and the
    mastery rate when the code adds it to the text. *)
Record completion := Completion {
  original_count : nat;
  cards_mastered : nat;
  mastery_rate : option Q
}.

Definition percentage (num den : nat) : Q :=
  (inject_Z (Z.of_nat num) / inject_Z (Z.of_nat den) * 100)%Q.

(** [None] is the [ZeroDivisionError] of the rate over a deck that has no
    card left in the store. *)
Definition study_complete (a : app) : option completion :=
  let original_cards := get_deck_cards a (current_deck a) in
  let cards_known := size (known_cards a) in
  if decide (0 < cards_known)
  then if decide (length original_cards = 0)
       then None
       else Some (Completion (length original_cards) cards_known
                    (Some (percentage cards_known (length original_cards))))
  else Some (Completion (length original_cards) cards_known None).

(** The buttons of the study screen. *)
Inductive button :=
  | ShowAnswer | HideAnswer | Previous | Next | EndSession
  | IKnowThis | NeedMoreStudy.

Global Instance button_eq_dec : EqDecision button.
Proof. solve_decision. Defined.

(** What [show_study_card] puts on the window: the completion screen when
    the index has reached the end of the list, the card with its buttons
    otherwise. *)
Inductive screen :=
  | StudyComplete (c : option completion)
  | StudyScreen (current : option study_card) (answer_shown : bool)
                (buttons : list button).

Definition study_buttons (a : app) : list button :=
  [if show_answer a then HideAnswer else ShowAnswer]
  ++ (if decide (0 < current_card_index a) then [Previous] else [])
  ++ (if decide (current_card_index a < length (study_cards a) - 1)
      then [Next] else [])
  ++ [EndSession]
  ++ (if show_answer a && bool_decide (0 < length (study_cards a))
      then [IKnowThis; NeedMoreStudy] else []).

Definition show_study_card (a : app) : screen :=
  if decide (length (study_cards a) ≤ current_card_index a)
  then StudyComplete (study_complete a)
  else StudyScreen (study_cards a !! current_card_index a) (show_answer a)
                   (study_buttons a).

(** The session is over when [show_study_card] goes to [study_complete]. *)
Definition is_complete (a : app) : bool :=
  bool_decide (length (study_cards a) ≤ current_card_index a).

(** [start_study_session]: the deck statistics it also updates are not
    part of the session state. *)
Definition start_study_session (a : app) : app :=
  set_show_answer false (set_current_card_index 0 a).

(** The two closures of [study_mode_selection]. *)
Definition start_sequential (a : app) : app :=
  start_study_session (prepare_study_cards (set_study_mode sequential a)).

Definition start_random (draw : nat → nat) (a : app) : app :=
  let a := prepare_study_cards (set_study_mode random a) in
  start_study_session (set_study_cards (shuffle draw (study_cards a)) a).

(** The outcome of a request to study a deck: a message box and nothing
    else, or the mode selection screen, from which a session is started. *)
Inductive outcome :=
  | MessageBox (kind title message : string)
  | ModeSelection (a : app).



(** The closures of [show_study_card]. *)
Definition toggle_answer (a : app) : app :=
  set_show_answer (negb (show_answer a)) a.

Definition next_card (a : app) : app :=
  set_show_answer false (set_current_card_index (current_card_index a + 1) a).

Definition prev_card (a : app) : app :=
  if decide (0 < current_card_index a)
  then set_show_answer false
         (set_current_card_index (current_card_index a - 1) a)
  else a.

Definition mark_as_known (a : app) : option app :=
  current_study_card ← study_cards a !! current_card_index a;
  let a := set_known_cards (known_cards a ∪ {[ card_id current_study_card ]}) a in
  let a := set_study_cards (delete (current_card_index a) (study_cards a)) a in
  let a :=
    if decide (length (study_cards a) ≤ current_card_index a)
    then if decide (0 < length (study_cards a))
         then set_current_card_index 0 a
         else a
    else a in
  Some (set_show_answer false a).

(** One round of the loop of [need_more_study]. *)
Definition append_duplicate (current_study_card : study_card)
    (q : list study_card) : list study_card :=
  q ++ [StudyCard (original_index current_study_card)
                  (card_data current_study_card)
                  (card_id current_study_card +:+ "_dup_" +:+ pretty (length q))].

Definition need_more_study (a : app) : option app :=
  current_study_card ← study_cards a !! current_card_index a;
  Some (next_card
          (set_study_cards
             (Nat.iter 2 (append_duplicate current_study_card) (study_cards a))
             a)).

(** A click on a button of the study screen, and the state in which the
    study screen is drawn again. There is none when the session is
    complete or the screen does not carry the button, when the handler
    raises, and for [EndSession], which leaves for the deck screen. *)
Definition click (b : button) (a : app) : option app :=
  match show_study_card a with
  | StudyComplete _ => None
  | StudyScreen _ _ buttons =>
      if decide (b ∈ buttons) then
        match b with
        | ShowAnswer | HideAnswer => Some (toggle_answer a)
        | Previous => Some (prev_card a)
        | Next => Some (next_card a)
        | EndSession => None
        | IKnowThis => mark_as_known a
        | NeedMoreStudy => need_more_study a
        end
      else None
  end.

Fixpoint clicks (bs : list button) (a : app) : option app :=
  match bs with
  | [] => Some a
  | b :: bs => a' ← click b a; clicks bs a'
  end.

(** [n] calls of [mark_as_known] in a row. *)
Fixpoint mark_as_known_times (n : nat) (a : app) : option app :=
  match n with
  | 0 => Some a
  | S n => a' ← mark_as_known a; mark_as_known_times n a'
  end.

End Fc4.

(** ** The second variant: [flashcard_app_improved.py] *)

Module Improved.

(** A record of [self.data["study_history"]]. *)
Record history_entry := HistoryEntry {
  deck : string;
  cards_studied : nat;
  cards_known : nat;
  duration : Q
}.

(** The fields of the application object that a study session touches.
    Here the entries of [study_cards] are the cards themselves and
    [known_cards] is a set of list positions. Times are seconds. *)
Record app := App {
  decks : gmap string (list card);
  study_history : list history_entry;
  current_deck : option string;
  current_card_index : nat;
  study_mode : string;
  show_answer : bool;
  study_cards : list card;
  known_cards : gset nat;
  session_start_time : option Q
}.

Definition set_study_history (h : list history_entry) (a : app) : app :=
  App (decks a) h (current_deck a) (current_card_index a) (study_mode a)
      (show_answer a) (study_cards a) (known_cards a) (session_start_time a).
Definition set_current_deck (d : option string) (a : app) : app :=
  App (decks a) (study_history a) d (current_card_index a) (study_mode a)
      (show_answer a) (study_cards a) (known_cards a) (session_start_time a).
Definition set_current_card_index (i : nat) (a : app) : app :=
  App (decks a) (study_history a) (current_deck a) i (study_mode a)
      (show_answer a) (study_cards a) (known_cards a) (session_start_time a).
Definition set_show_answer (b : bool) (a : app) : app :=
  App (decks a) (study_history a) (current_deck a) (current_card_index a)
      (study_mode a) b (study_cards a) (known_cards a) (session_start_time a).
Definition set_study_cards (q : list card) (a : app) : app :=
  App (decks a) (study_history a) (current_deck a) (current_card_index a)
      (study_mode a) (show_answer a) q (known_cards a) (session_start_time a).
Definition set_known_cards (k : gset nat) (a : app) : app :=
  App (decks a) (study_history a) (current_deck a) (current_card_index a)
      (study_mode a) (show_answer a) (study_cards a) k (session_start_time a).
Definition set_session_start_time (t : option Q) (a : app) : app :=
  App (decks a) (study_history a) (current_deck a) (current_card_index a)
      (study_mode a) (show_answer a) (study_cards a) (known_cards a) t.

Definition get_deck_cards (a : app) (deck_name : string) : list card :=
  default [] (decks a !! deck_name).

(** The figures of the message box that closes a session. *)
Record results := Results {
  studied : nat;
  known : nat;
  accuracy : Q;
  minutes : Q
}.

Inductive button := ShowAnswer | DidntKnow | KnewIt | EndSession.

Global Instance button_eq_dec : EqDecision button.
Proof. solve_decision. Defined.

Inductive screen :=
  | NoCards
  | MainMenu (shown : option results)
  | StudyScreen (current : option card) (answer_shown : bool)
                (buttons : list button).

Definition percentage (num den : nat) : Q :=
  (inject_Z (Z.of_nat num) / inject_Z (Z.of_nat den) * 100)%Q.

(** [finish_study_session]: when a session was started, the history record
    and the results box; then the main menu. [now] is the clock reading.
    The per-deck statistics it also updates are not part of the session
    state. *)
Definition finish_study_session (now : Q) (a : app) : app * screen :=
  match session_start_time a with
  | Some t0 =>
      let duration := (now - t0)%Q in
      let studied := current_card_index a in
      let known := size (known_cards a) in
      let deck_name :=
        match current_deck a with
        | None | Some "" => "All Decks"
        | Some d => d
        end in
      let a := set_study_history
                 (study_history a ++ [HistoryEntry deck_name studied known duration])
                 a in
      let accuracy :=
        if decide (0 < studied) then percentage known studied else 0%Q in
      (a, MainMenu (Some (Results studied known accuracy (duration / 60)%Q)))
  | None => (a, MainMenu None)
  end.

Definition study_buttons (a : app) : list button :=
  (if show_answer a then [DidntKnow; KnewIt] else [ShowAnswer])
  ++ [EndSession].

Definition show_study_card (now : Q) (a : app) : app * screen :=
  if decide (length (study_cards a) ≤ current_card_index a)
  then finish_study_session now a
  else (a, StudyScreen (study_cards a !! current_card_index a)
                       (show_answer a) (study_buttons a)).

(** [start_study_session]: [u] is the value of [random.random()] and
    [draw] the random source of [random.shuffle]. *)
Definition start_study_session (now u : Q) (draw : nat → nat) (a : app)
    : app * screen :=
  let a := set_current_card_index 0 a in
  let a := set_known_cards ∅ a in
  let a := set_show_answer false a in
  let a := set_session_start_time (Some now) a in
  let a := if Qlt_le_dec u (1 # 2)
           then set_study_cards (shuffle draw (study_cards a)) a
           else a in
  show_study_card now a.

Definition study_deck (now u : Q) (draw : nat → nat) (deck_name : string)
    (a : app) : app * screen :=
  let a := set_current_deck (Some deck_name) a in
  let a := set_study_cards (get_deck_cards a deck_name) a in
  match study_cards a with
  | [] => (a, NoCards)
  | _ :: _ => start_study_session now u draw a
  end.

Definition toggle_answer (now : Q) (a : app) : app * screen :=
  show_study_card now (set_show_answer true a).

Definition next_card (now : Q) (knew_it : bool) (a : app) : app * screen :=
  let a := if knew_it
           then set_known_cards (known_cards a ∪ {[ current_card_index a ]}) a
           else a in
  let a := set_current_card_index (current_card_index a + 1) a in
  let a := set_show_answer false a in
  show_study_card now a.

(** The handler calls a session is made of, and a run of them, each with
    the clock reading at the time of the call. *)
Inductive action := Toggle | Grade (knew_it : bool).

Definition perform (now : Q) (e : action) (a : app) : app * screen :=
  match e with
  | Toggle => toggle_answer now a
  | Grade knew_it => next_card now knew_it a
  end.

Fixpoint perform_all (es : list (Q * action)) (a : app) : app :=
  match es with
  | [] => a
  | (now, e) :: es => perform_all es (perform now e a).1
  end.


End Improved.

(** ** Sample decks *)

Definition two_plus_two : card := Card "2+2" "4".
Definition three_plus_three : card := Card "3+3" "6".

(** The first variant with a deck ["d"] of the given cards selected. *)
Definition fc4_app (cs : list card) : Fc4.app :=
  Fc4.App {[ "d" := cs ]} (Some "d") 0 Fc4.sequential false [] ∅.

(** The sequential session over the two sample cards. *)
Definition two_card_session : Fc4.app :=
  Fc4.start_sequential (fc4_app [two_plus_two; three_plus_three]).

(** A single-card session after "show answer, need more study" and then
    "show answer, I know this" on each of the two duplicates. *)
Definition requeue_then_known : list Fc4.button :=
  [Fc4.ShowAnswer; Fc4.NeedMoreStudy;
   Fc4.ShowAnswer; Fc4.IKnowThis;
   Fc4.ShowAnswer; Fc4.IKnowThis].

(** On a single-card session: "need more study" on the card, "I know
    this" on its first duplicate, "need more study" on its second
    duplicate, "I know this" on the two duplicates of that one, which
    takes the index back to the card, and "need more study" on the card
    again. *)
Definition requeue_three_times : list Fc4.button :=
  [Fc4.ShowAnswer; Fc4.NeedMoreStudy;
   Fc4.ShowAnswer; Fc4.IKnowThis;
   Fc4.ShowAnswer; Fc4.NeedMoreStudy;
   Fc4.ShowAnswer; Fc4.IKnowThis;
   Fc4.ShowAnswer; Fc4.IKnowThis;
   Fc4.ShowAnswer; Fc4.NeedMoreStudy].

(** The second variant before any session, with a deck ["d"] of the given
    cards. *)
Definition improved_app (cs : list card) : Improved.app :=
  Improved.App {[ "d" := cs ]} [] None 0 "sequential" false [] ∅ None.

(** A random source whose every draw is [0]. *)
Definition zero_draws : nat → nat := λ _, 0.

(** On the session over the two sample cards: on to the second card with
    "Next", "I know this" on it, which takes the index back to the first
    card, and "I know this" on that one. *)
Definition next_then_known : list Fc4.button :=
  [Fc4.ShowAnswer; Fc4.Next;
   Fc4.ShowAnswer; Fc4.IKnowThis;
   Fc4.ShowAnswer; Fc4.IKnowThis].


(** The invariant of a session of the second variant: every known position
    is below the current index, and a start time is recorded. *)
Definition session_invariant (a : Improved.app) : Prop :=
  (∀ i, i ∈ Improved.known_cards a → i < Improved.current_card_index a)
  ∧ is_Some (Improved.session_start_time a).

(** The card identifiers of a list of entries. *)
Definition card_ids (q : list Fc4.study_card) : list string :=
  Fc4.card_id <$> q.

(** ** Counting what a session did *)

(** The number of clicks on a given button in a list of clicks. *)
Definition count_button (b : Fc4.button) (bs : list Fc4.button) : nat :=
  length (filter (b =.) bs).

(** The buttons that move through the list or show and hide the answer. *)
Definition is_navigation (b : Fc4.button) : bool :=
  match b with
  | Fc4.ShowAnswer | Fc4.HideAnswer | Fc4.Previous | Fc4.Next => true
  | _ => false
  end.

(** The number of grading calls in a run of the second variant, and the
    number of those that said "knew it". *)
Fixpoint grades (es : list (Q * Improved.action)) : nat :=
  match es with
  | [] => 0
  | (_, Improved.Grade _) :: es => S (grades es)
  | (_, Improved.Toggle) :: es => grades es
  end.

Fixpoint known_grades (es : list (Q * Improved.action)) : nat :=
  match es with
  | [] => 0
  | (_, Improved.Grade true) :: es => S (known_grades es)
  | _ :: es => known_grades es
  end.

(** ** The statistics of [view_study_history]

    [None] is the "No History" message box. The average divides the sum of
    the accuracies of the sessions that studied a card by the number of all
    sessions. *)

Definition Qsum (xs : list Q) : Q := foldr Qplus 0%Q xs.

Record history_stats := HistoryStats {
  total_cards : nat;
  total_time : Q;
  avg_accuracy : Q
}.

Definition session_accuracies (h : list Improved.history_entry) : list Q :=
  (λ s, Improved.percentage (Improved.cards_known s) (Improved.cards_studied s))
    <$> filter (λ s, 0 < Improved.cards_studied s) h.

Definition view_study_history (a : Improved.app) : option history_stats :=
  match Improved.study_history a with
  | [] => None
  | h =>
      let total_cards := sum_list (Improved.cards_studied <$> h) in
      let total_time := Qsum (Improved.duration <$> h) in
      let avg_accuracy :=
        if decide (0 < length h)
        then (Qsum (session_accuracies h) / inject_Z (Z.of_nat (length h)))%Q
        else 0%Q in
      Some (HistoryStats total_cards total_time avg_accuracy)
  end.

(** A history record that reports no more known cards than studied ones. *)
Definition sound_record (s : Improved.history_entry) : Prop :=
  Improved.cards_known s ≤ Improved.cards_studied s.

(** ** Python dictionaries

    A [dict] with string keys is the list of its items in insertion order,
    every key occurring once. Assigning to a key that is present keeps its
    place; a new key goes to the end. *)

Module PyDict.

Fixpoint get {V} (k : string) (d : list (string * V)) : option V :=
  match d with
  | [] => None
  | (k', v) :: d => if decide (k' = k) then Some v else get k d
  end.

(** [k in d] *)
Definition mem {V} (k : string) (d : list (string * V)) : bool :=
  if get k d is Some _ then true else false.

(** [d[k] = v] *)
Fixpoint set {V} (k : string) (v : V) (d : list (string * V))
    : list (string * V) :=
  match d with
  | [] => [(k, v)]
  | (k', v') :: d =>
      if decide (k' = k) then (k, v) :: d else (k', v') :: set k v d
  end.

(** [del d[k]], for a key that is present. *)
Definition del {V} (k : string) (d : list (string * V)) : list (string * V) :=
  filter (λ item, item.1 ≠ k) d.

(** [list(d.keys())] *)
Definition keys {V} (d : list (string * V)) : list string := d.*1.

End PyDict.

(** ** The deck store of the first variant ([fc4.py]) *)

Module Fc4Store.

(** A card as it is stored in a deck. *)
Record stored_card := StoredCard {
  question : string;
  answer : string;
  created : string
}.

(** A deck of [self.data["decks"]]; [total_studies] and [total_time] are
    the two entries of its ["stats"]. *)
Record deck := Deck {
  cards : list stored_card;
  deck_created : string;
  last_studied : option string;
  total_studies : nat;
  total_time : nat
}.

(** The fields of the application object that deck management touches:
    the decks, the ["last_used_deck"] setting and [self.current_deck]. *)
Record app := App {
  decks : list (string * deck);
  last_used_deck : option string;
  current_deck : option string
}.

(** What a call gives: a value, or the exception it raises. *)
Inductive outcome (A : Type) :=
  | Returns (x : A)
  | Raises (exception : string).
Global Arguments Returns {A} x.
Global Arguments Raises {A} exception.

(** What a handler leaves on the screen. *)
Inductive reply :=
  | Nothing
  | ShowWarning (message : string)
  | ShowError (message : string)
  | ShowInfo (message : string)
  | DeckScreen (deck_name : string)
  | StudyModeSelection (deck_name : string).

Definition create_deck (now deck_name : string) (a : app) : bool * app :=
  if PyDict.mem deck_name (decks a) then (false, a)
  else (true,
        App (PyDict.set deck_name (Deck [] now None 0 0) (decks a))
            (last_used_deck a) (current_deck a)).

Definition delete_deck (deck_name : string) (a : app) : bool * app :=
  if PyDict.mem deck_name (decks a)
  then (true,
        App (PyDict.del deck_name (decks a))
            (if decide (last_used_deck a = Some deck_name)
             then None else last_used_deck a)
            (current_deck a))
  else (false, a).

Definition get_deck_cards (a : app) (deck_name : string) : list stored_card :=
  match PyDict.get deck_name (decks a) with
  | Some d => cards d
  | None => []
  end.

Definition add_card_to_deck (now deck_name question answer : string)
    (a : app) : bool * app :=
  match PyDict.get deck_name (decks a) with
  | None => (false, a)
  | Some d =>
      let new_card := StoredCard question answer now in
      (true,
       App (PyDict.set deck_name
              (Deck (cards d ++ [new_card]) (deck_created d) (last_studied d)
                    (total_studies d) (total_time d))
              (decks a))
           (last_used_deck a) (current_deck a))
  end.

(** Cards added one after the other to a deck, each with the time of its
    call, its question and its answer. *)
Fixpoint add_cards (new : list (string * string * string))
    (deck_name : string) (a : app) : app :=
  match new with
  | [] => a
  | (now, question, answer) :: new =>
      add_cards new deck_name
        (add_card_to_deck now deck_name question answer a).2
  end.

(** [get_selected_deck_name]: [selection] is the tuple that the list box
    gives, the rows that are selected. *)
Definition get_selected_deck_name (selection : list nat) (a : app)
    : outcome (option string) :=
  match selection, decks a with
  | [], _ | _, [] => Returns None
  | i :: _, _ =>
      match PyDict.keys (decks a) !! i with
      | Some deck_name => Returns (Some deck_name)
      | None => Raises "IndexError"
      end
  end.

Section handlers.

(** [str.strip] of the Python library. *)
Variable strip : string → string.

Definition create_new_deck (now : string) (dialog : option string) (a : app)
    : app * reply :=
  match dialog with
  | None | Some "" => (a, Nothing)
  | Some deck_name =>
      let deck_name := strip deck_name in
      match deck_name with
      | "" => (a, ShowWarning "Deck name cannot be empty!")
      | _ =>
          let '(created, a') := create_deck now deck_name a in
          if created then (a', Nothing)
          else (a', ShowError ("Deck '" +:+ deck_name +:+ "' already exists!"))
      end
  end.

Definition open_selected_deck (selection : list nat) (a : app)
    : outcome (app * reply) :=
  match get_selected_deck_name selection a with
  | Raises e => Raises e
  | Returns (None | Some "") =>
      Returns (a, ShowWarning "Please select a deck to open!")
  | Returns (Some deck_name) =>
      Returns (App (decks a) (Some deck_name) (Some deck_name),
               DeckScreen deck_name)
  end.

Definition study_selected_deck (selection : list nat) (a : app)
    : outcome (app * reply) :=
  match get_selected_deck_name selection a with
  | Raises e => Raises e
  | Returns (None | Some "") =>
      Returns (a, ShowWarning "Please select a deck to study!")
  | Returns (Some deck_name) =>
      match get_deck_cards a deck_name with
      | [] => Returns (a, ShowInfo ("Deck '" +:+ deck_name
                                    +:+ "' has no cards to study!"))
      | _ :: _ =>
          Returns (App (decks a) (last_used_deck a) (Some deck_name),
                   StudyModeSelection deck_name)
      end
  end.

Definition rename_selected_deck (selection : list nat)
    (dialog : option string) (a : app) : outcome (app * reply) :=
  match get_selected_deck_name selection a with
  | Raises e => Raises e
  | Returns (None | Some "") =>
      Returns (a, ShowWarning "Please select a deck to rename!")
  | Returns (Some old_name) =>
      match dialog with
      | None | Some "" => Returns (a, Nothing)
      | Some new_name =>
          if decide (strip new_name = old_name) then Returns (a, Nothing)
          else
            let new_name := strip new_name in
            if PyDict.mem new_name (decks a)
            then Returns (a, ShowError ("Deck '" +:+ new_name
                                        +:+ "' already exists!"))
            else
              match PyDict.get old_name (decks a) with
              | None => Raises "KeyError"
              | Some d =>
                  Returns
                    (App (PyDict.set new_name d
                            (PyDict.del old_name (decks a)))
                         (if decide (last_used_deck a = Some old_name)
                          then Some new_name else last_used_deck a)
                         (current_deck a),
                     ShowInfo ("Deck renamed to '" +:+ new_name +:+ "'!"))
              end
      end
  end.

Definition delete_selected_deck (selection : list nat) (confirmed : bool)
    (a : app) : outcome (app * reply) :=
  match get_selected_deck_name selection a with
  | Raises e => Raises e
  | Returns (None | Some "") =>
      Returns (a, ShowWarning "Please select a deck to delete!")
  | Returns (Some deck_name) =>
      if confirmed then
        let '(deleted, a') := delete_deck deck_name a in
        if deleted
        then Returns (a', ShowInfo ("Deck '" +:+ deck_name
                                    +:+ "' deleted successfully!"))
        else Returns (a', Nothing)
      else Returns (a, Nothing)
  end.

End handlers.

(** [f"{original_name} ({counter})"] *)
Definition numbered (original_name : string) (counter : nat) : string :=
  original_name +:+ " (" +:+ pretty counter +:+ ")".

(** The loop of [import_deck] that looks for a name that is not taken:
    [original], then [original (1)], [original (2)], ... [fuel] bounds the
    number of names that are tried. *)
Fixpoint free_name (fuel : nat) (a : app) (original_name : string)
    (counter : nat) (deck_name : string) : option string :=
  match fuel with
  | 0 => None
  | S fuel =>
      if PyDict.mem deck_name (decks a)
      then free_name fuel a original_name (counter + 1)
             (numbered original_name counter)
      else Some deck_name
  end.

(** [import_deck] on a file that holds a deck name and a deck. One more
    name than there are decks is enough to try. *)
Definition import_deck (deck_name : string) (deck_data : deck) (a : app)
    : option (app * reply) :=
  chosen ← free_name (S (length (decks a))) a deck_name 1 deck_name;
  Some (App (PyDict.set chosen deck_data (decks a))
            (last_used_deck a) (current_deck a),
        ShowInfo ("Imported deck '" +:+ chosen +:+ "' with "
                  +:+ pretty (length (cards deck_data)) +:+ " cards!")).

(** The part of [start_study_session] that the session model leaves out:
    the time and the count of studies of the current deck. *)
Definition record_study (now : string) (a : app) : app :=
  match current_deck a with
  | Some deck_name =>
      match PyDict.get deck_name (decks a) with
      | Some d =>
          App (PyDict.set deck_name
                 (Deck (cards d) (deck_created d) (Some now)
                       (total_studies d + 1) (total_time d))
                 (decks a))
              (last_used_deck a) (current_deck a)
      | None => a
      end
  | None => a
  end.

(** The session state over the store: what a session reads of a stored
    card is its question and its answer. *)
Definition to_card (c : stored_card) : card := Card (question c) (answer c).

Definition session (a : app) : Fc4.app :=
  Fc4.App (list_to_map ((λ item, (item.1, to_card <$> cards item.2)) <$> decks a))
          (current_deck a) 0 Fc4.sequential false [] ∅.

(** The setting names no deck or a deck of the store. *)
Definition last_used_exists (a : app) : Prop :=
  match last_used_deck a with
  | Some deck_name => PyDict.mem deck_name (decks a) = true
  | None => True
  end.

End Fc4Store.

(** ** Cards with tags and the pooled session of the second variant
    ([flashcard_app_improved.py]) *)

Module ImprovedStore.

(** A card as it is stored in a deck. *)
Record stored_card := StoredCard {
  question : string;
  answer : string;
  question_image : string;
  answer_image : string;
  tags : list string;
  created : string;
  review_count : nat
}.

Record deck := Deck {
  cards : list stored_card;
  description : string;
  deck_created : string;
  last_studied : option string;
  total_studies : nat;
  total_time : Q
}.

(** The decks and [self.data["tags"]], the list of all tags. *)
Record app := App {
  decks : list (string * deck);
  data_tags : list string
}.

(** The loop [for tag in tags: if tag not in self.data["tags"]: ...append] *)
Definition add_tags (new : list string) (known : list string) : list string :=
  foldl (λ known tag, if decide (tag ∈ known) then known else known ++ [tag])
        known new.

(** [add_card_to_deck]; the argument [tags] is [None] or a list. *)
Definition add_card_to_deck (now deck_name question answer q_img a_img : string)
    (tags : option (list string)) (a : app) : bool * app :=
  match PyDict.get deck_name (decks a) with
  | None => (false, a)
  | Some d =>
      let card := StoredCard question answer q_img a_img (default [] tags)
                             now 0 in
      let d := Deck (cards d ++ [card]) (description d) (deck_created d)
                    (last_studied d) (total_studies d) (total_time d) in
      (true,
       App (PyDict.set deck_name d (decks a))
           (match tags with
            | None | Some [] => data_tags a
            | Some tags => add_tags tags (data_tags a)
            end))
  end.

(** What a session reads of a stored card. *)
Definition to_card (c : stored_card) : card := Card (question c) (answer c).

(** The list [all_cards] of [study_all_decks]: every card of every deck,
    deck after deck, with the name of its deck. *)
Definition all_cards (a : app) : list (string * stored_card) :=
  item ← decks a; (λ c, (item.1, c)) <$> cards item.2.

(** [study_all_decks], on the store [a] and the session fields [s]. *)
Definition study_all_decks (now u : Q) (draw : nat → nat) (a : app)
    (s : Improved.app) : Improved.app * Improved.screen :=
  match all_cards a with
  | [] => (s, Improved.NoCards)
  | _ :: _ =>
      let s := Improved.set_current_deck None s in
      let s := Improved.set_study_cards ((to_card ∘ snd) <$> all_cards a) s in
      Improved.start_study_session now u draw s
  end.

End ImprovedStore.

(** ** Editing the cards of a deck ([fc4.py]) *)

Module Fc4Cards.
Import Fc4Store.

(** [self.data["decks"][deck_name]["cards"]]: the subscripts raise for a
    deck that does not exist. *)
Definition deck_cards (a : app) (deck_name : string)
    : outcome (deck * list stored_card) :=
  match PyDict.get deck_name (decks a) with
  | Some d => Returns (d, cards d)
  | None => Raises "KeyError"
  end.

Definition with_cards (cs : list stored_card) (deck_name : string) (d : deck)
    (a : app) : app :=
  App (PyDict.set deck_name
         (Deck cs (deck_created d) (last_studied d) (total_studies d)
               (total_time d))
         (decks a))
      (last_used_deck a) (current_deck a).





(** [edit_single_deck_card], up to the screen it draws: the card that is
    edited, or the error. *)
Definition edit_single_deck_card (deck_name : string) (card_index : nat)
    (a : app) : stored_card + reply :=
  let cards := get_deck_cards a deck_name in
  match cards !! card_index with
  | None => inr (ShowError "Card not found!")
  | Some card => inl card
  end.

Section save.

(** [str.strip] of the Python library. *)
Variable strip : string → string.

(** The closure [save_changes] of [edit_single_deck_card], on the texts of
    the two input fields. *)
Definition save_changes (deck_name : string) (card_index : nat)
    (question_text answer_text : string) (a : app) : outcome (app * reply) :=
  let question := strip question_text in
  let answer := strip answer_text in
  match question, answer with
  | "", _ | _, "" =>
      Returns (a, ShowWarning "Both question and answer are required!")
  | _, _ =>
      match deck_cards a deck_name with
      | Raises e => Raises e
      | Returns (d, cs) =>
          match cs !! card_index with
          | None => Raises "IndexError"
          | Some card =>
              Returns
                (with_cards
                   (<[card_index := StoredCard question answer (created card)]> cs)
                   deck_name d a,
                 ShowInfo "Card updated successfully!")
          end
      end
  end.

End save.

End Fc4Cards.

(** ** Searching the cards ([flashcard_app_improved.py]) *)

Module ImprovedSearch.
Import ImprovedStore.

(** [needle in text] on strings. *)
Fixpoint contains (needle text : string) : bool :=
  String.prefix needle text
  || match text with
     | "" => false
     | String _ text => contains needle text
     end.

Section search.

(** [str.lower] of the Python library. *)
Variable lower : string → string.

(** The test of the loop of [search_cards], on the lowered query. *)
Definition matches (query : string) (card : stored_card) : bool :=
  contains query (lower (question card))
  || contains query (lower (answer card))
  || existsb (λ tag, contains query (lower tag)) (tags card).

(** The list [results] of [search_cards] for a query that is not empty:
    deck by deck and card by card, the deck name, the index and the card
    of every card that matches. *)
Definition search_results (query : string) (a : app)
    : list (string * nat * stored_card) :=
  let query := lower query in
  item ← decks a;
  omap (λ ic, if matches query ic.2 then Some (item.1, ic.1, ic.2) else None)
       (imap (λ i card, (i, card)) (cards item.2)).

End search.

End ImprovedSearch.

(** * Properties *)

(** ** Removal of a known card ([fc4.py]) *)

(** Closed goals are settled by evaluation. *)
Ltac evaluate := vm_compute; reflexivity.

Section Fc4_mark_as_known.
Import Fc4.

(** The state [mark_as_known] returns on a list that has an entry at the
    current index. *)
Lemma mark_as_known_at (a : app) (e : study_card) :
  study_cards a !! current_card_index a = Some e →
  mark_as_known a =
    Some (App (decks a) (current_deck a)
            (if decide (current_card_index a
                        < length (delete (current_card_index a) (study_cards a)))
             then current_card_index a else 0)
            (study_mode a) false
            (delete (current_card_index a) (study_cards a))
            (known_cards a ∪ {[ card_id e ]})).
Proof.
  intros He. unfold mark_as_known. rewrite He. cbn.
  pose proof (lookup_lt_Some _ _ _ He) as Hlt.
  pose proof (length_delete (study_cards a) (current_card_index a)
                (mk_is_Some _ _ He)) as Hlen.
  unfold set_show_answer, set_current_card_index; cbn.
  repeat case_decide; cbn; try lia; try reflexivity.
  do 2 f_equal. lia.
Qed.

Lemma mark_as_known_times_drop (j : nat) : ∀ a : app,
  current_card_index a = 0 →
  j ≤ length (study_cards a) →
  ∃ a', mark_as_known_times j a = Some a'
        ∧ study_cards a' = drop j (study_cards a)
        ∧ current_card_index a' = 0.
Proof.
  induction j as [|j IH]; intros a Hi Hj.
  - exists a. by rewrite drop_0.
  - destruct (study_cards a) as [|e q] eqn:Hq; [cbn in Hj; lia|].
    assert (He : study_cards a !! current_card_index a = Some e)
      by (by rewrite Hi, Hq).
    cbn [mark_as_known_times]. rewrite (mark_as_known_at a e He).
    rewrite Hi, Hq. cbn -[decide].
    match goal with |- context [mark_as_known_times j ?b] =>
      destruct (IH b) as (a' & Ha' & Hd & Hi') end.
    + cbn. by case_decide.
    + cbn in *. lia.
    + exists a'. by rewrite Ha'.
Qed.

(** C1 (as amended). On a state that shows a card, [mark_as_known] removes
    the current entry (the list shrinks by one), records its identifier,
    hides the answer, and keeps the index when an entry is left at it; when
    none is left there the index goes back to [0], so that the session is
    complete exactly when the list has become empty. On a single-card
    deck, "need more study" and then "I know this" on the two duplicates
    leaves the session on the original entry at index [0], not complete;
    one more "I know this" completes it. *)
Theorem mark_as_known_removes_current :
  (∀ a : app, is_complete a = false →
     ∃ e a',
       study_cards a !! current_card_index a = Some e
       ∧ mark_as_known a = Some a'
       ∧ study_cards a' = delete (current_card_index a) (study_cards a)
       ∧ length (study_cards a') + 1 = length (study_cards a)
       ∧ known_cards a' = known_cards a ∪ {[ card_id e ]}
       ∧ show_answer a' = false
       ∧ current_card_index a' =
           (if decide (current_card_index a < length (study_cards a'))
            then current_card_index a else 0)
       ∧ (is_complete a' = true ↔ study_cards a' = []))
  ∧ (∀ (a : app) (c : card),
       get_deck_cards a (current_deck a) = [c] →
       ∃ a1 a2,
         clicks requeue_then_known (start_sequential a) = Some a1
         ∧ is_complete a1 = false
         ∧ current_card_index a1 = 0
         ∧ study_cards a1 = [make_study_card (current_deck a) 0 c]
         ∧ clicks [ShowAnswer; IKnowThis] a1 = Some a2
         ∧ is_complete a2 = true).
Proof.
  split.
  - intros a Hact. unfold is_complete in Hact.
    apply bool_decide_eq_false in Hact.
    destruct (lookup_lt_is_Some_2 (study_cards a) (current_card_index a))
      as [e He]; [lia|].
    eexists e, _. split; [exact He|]. split; [exact (mark_as_known_at a e He)|].
    pose proof (length_delete (study_cards a) (current_card_index a)
                  (mk_is_Some _ _ He)) as Hlen.
    pose proof (lookup_lt_Some _ _ _ He) as Hlt.
    cbn. repeat split; try done; try lia.
    + unfold is_complete; cbn. intros Hc%bool_decide_eq_true.
      apply length_zero_iff_nil. case_decide; lia.
    + unfold is_complete; cbn. intros Hnil. apply bool_decide_eq_true.
      rewrite Hnil. cbn. lia.
  - intros a c Hc.
    unfold start_sequential, prepare_study_cards, requeue_then_known.
    change (get_deck_cards (set_study_mode sequential a)
              (current_deck (set_study_mode sequential a)))
      with (get_deck_cards a (current_deck a)).
    rewrite Hc.
    match goal with |- context [clicks ?bs ?b] =>
      destruct (clicks bs b) as [a1|] eqn:E1; vm_compute in E1; [|done]
    end.
    injection E1 as <-.
    eexists _, _. split; [reflexivity|].
    do 3 (split; [by vm_compute|]).
    match goal with |- clicks ?bs ?b = _ ∧ _ =>
      destruct (clicks bs b) as [a2|] eqn:E2; vm_compute in E2; [|done]
    end.
    injection E2 as <-. split; [reflexivity | by vm_compute].
Qed.

(** A state that shows a card, for the statement above. *)
Lemma mark_as_known_removes_current_witness :
  is_complete (start_sequential (fc4_app [two_plus_two])) = false
  ∧ get_deck_cards (fc4_app [two_plus_two])
      (current_deck (fc4_app [two_plus_two])) = [two_plus_two]
  ∧ (∃ e a', mark_as_known (start_sequential (fc4_app [two_plus_two])) = Some a'
             ∧ known_cards a' = ∅ ∪ {[ card_id e ]}
             ∧ is_complete a' = true)
  ∧ (∃ a1, clicks requeue_then_known (start_sequential (fc4_app [two_plus_two]))
           = Some a1 ∧ is_complete a1 = false).
Proof.
  split; [reflexivity|]. split; [reflexivity|]. split.
  - destruct (proj1 mark_as_known_removes_current
                (start_sequential (fc4_app [two_plus_two])) eq_refl)
      as (e & a' & He & Hm & Hq & _ & Hk & _ & _ & Hc).
    exists e, a'. split; [exact Hm|]. split; [exact Hk|].
    apply Hc. rewrite Hq. reflexivity.
  - destruct (proj2 mark_as_known_removes_current
                (fc4_app [two_plus_two]) two_plus_two eq_refl)
      as (a1 & a2 & H1 & H2 & _).
    exists a1. split; [exact H1 | exact H2].
Defined.

(** C1, the claim as written fails: on the single-card deck the last "I
    know this" removes the entry at index [1], no entry is left at that
    index, and the session is not complete: the index is back at [0]. *)
Lemma mark_as_known_not_complete_counterexample :
  ∃ a a',
    clicks [ShowAnswer; NeedMoreStudy; ShowAnswer; IKnowThis; ShowAnswer]
      (start_sequential (fc4_app [two_plus_two])) = Some a
    ∧ card_ids (study_cards a) = ["d_0"; "d_0_dup_2"]
    ∧ current_card_index a = 1
    ∧ is_complete a = false
    ∧ mark_as_known a = Some a'
    ∧ card_ids (study_cards a') = ["d_0"]
    ∧ study_cards a' !! current_card_index a = None
    ∧ current_card_index a' = 0
    ∧ is_complete a' = false.
Proof.
  eexists _, _. split; [evaluate|]. do 3 (split; [evaluate|]).
  split; [evaluate|]. repeat split; evaluate.
Qed.

(** C6. From the start of a session on a list of [K >= 1] entries, [K]
    calls of [mark_as_known] succeed and end in the complete state with
    an empty list, and after fewer calls the session is not complete. *)
Theorem mark_as_known_times_complete (a : app) :
  1 ≤ length (study_cards a) →
  (∃ a', mark_as_known_times (length (study_cards a)) (start_study_session a)
         = Some a'
         ∧ is_complete a' = true)
  ∧ (∀ j, j < length (study_cards a) →
       ∃ a', mark_as_known_times j (start_study_session a) = Some a'
             ∧ is_complete a' = false).
Proof.
  intros _. split.
  - destruct (mark_as_known_times_drop (length (study_cards a))
                (start_study_session a)) as (a' & Ha' & Hq & Hi);
      [reflexivity | cbn; lia |].
    exists a'. split; [exact Ha'|].
    unfold is_complete. apply bool_decide_eq_true.
    rewrite Hq. cbn. rewrite drop_all. cbn. lia.
  - intros j Hj.
    destruct (mark_as_known_times_drop j (start_study_session a))
      as (a' & Ha' & Hq & Hi); [reflexivity | cbn; lia |].
    exists a'. split; [exact Ha'|].
    unfold is_complete. apply bool_decide_eq_false.
    rewrite Hq, Hi, length_drop. cbn. lia.
Qed.

Lemma mark_as_known_times_complete_witness :
  1 ≤ length (study_cards two_card_session)
  ∧ ∃ a', mark_as_known_times (length (study_cards two_card_session))
            (start_study_session two_card_session) = Some a'
          ∧ is_complete a' = true.
Proof.
  assert (H : 1 ≤ length (study_cards two_card_session)) by (vm_compute; lia).
  split; [exact H|].
  exact (proj1 (mark_as_known_times_complete two_card_session H)).
Defined.

End Fc4_mark_as_known.

(** ** Duplication of a card that needs more study ([fc4.py]) *)

Section Fc4_need_more_study.
Import Fc4.

(** What [need_more_study] does on a state that shows a card: two entries
    are appended, copies of the current one but for the identifier, which
    gets the length of the list at the time of each append as a suffix;
    the index moves on by one and the answer is hidden. *)
Lemma need_more_study_at (a : app) (e : study_card) :
  study_cards a !! current_card_index a = Some e →
  need_more_study a =
    Some (App (decks a) (current_deck a) (current_card_index a + 1)
            (study_mode a) false
            (study_cards a
             ++ [StudyCard (original_index e) (card_data e)
                   (card_id e +:+ "_dup_" +:+ pretty (length (study_cards a)));
                 StudyCard (original_index e) (card_data e)
                   (card_id e +:+ "_dup_"
                    +:+ pretty (length (study_cards a) + 1))])
            (known_cards a)).
Proof.
  intros He. unfold need_more_study. rewrite He. cbn.
  unfold next_card, set_show_answer, set_current_card_index, append_duplicate.
  cbn. rewrite length_app. cbn. by rewrite <-app_assoc.
Qed.

(** C2, the defect. The suffix of a duplicate is the length of the list,
    which removals make go down again: on a single-card deck, after
    "need more study", "I know this", "need more study", "I know this"
    twice and "need more study" again, the list holds two entries with the
    identifier ["d_0_dup_2"]. *)
Theorem need_more_study_repeats_card_id :
  ∃ a,
    clicks requeue_three_times (start_sequential (fc4_app [two_plus_two]))
      = Some a
    ∧ card_ids (study_cards a) = ["d_0"; "d_0_dup_2"; "d_0_dup_2"; "d_0_dup_3"]
    ∧ ¬ NoDup (card_ids (study_cards a)).
Proof.
  eexists. split; [evaluate|]. split; [evaluate|].
  intros Hnd. vm_compute in Hnd.
  apply NoDup_cons in Hnd as [_ Hnd]. apply NoDup_cons in Hnd as [Hin _].
  apply Hin. left.
Qed.

(** C3, the defect. [known_cards] collects card identifiers, and the
    duplicates of a card have identifiers of their own: on a single-card
    deck, "need more study" and then "I know this" on the two duplicates
    gives a known set of two elements for a deck of one card, and one more
    "I know this" a completion screen of three mastered cards out of one,
    a rate of 300 percent. *)
Theorem known_cards_outgrow_deck :
  ∃ a a',
    clicks requeue_then_known (start_sequential (fc4_app [two_plus_two]))
      = Some a
    ∧ known_cards a = {[ "d_0_dup_1"; "d_0_dup_2" ]}
    ∧ length (get_deck_cards a (current_deck a)) = 1
    ∧ size (known_cards a) = 2
    ∧ clicks [ShowAnswer; IKnowThis] a = Some a'
    ∧ known_cards a' = {[ "d_0_dup_1"; "d_0_dup_2"; "d_0" ]}
    ∧ show_study_card a' = StudyComplete (Some (Completion 1 3 (Some 300%Q))).
Proof.
  eexists _, _. split; [evaluate|]. do 3 (split; [evaluate|]).
  split; [evaluate|]. split; evaluate.
Qed.

End Fc4_need_more_study.

(** ** The initial order of the cards *)

Section Build_queue.

Lemma swap_Permutation {A} (i j : nat) (x : list A) : swap i j x ≡ₚ x.
Proof.
  unfold swap.
  destruct (x !! j) as [xj|] eqn:Hj; [|reflexivity].
  destruct (x !! i) as [xi|] eqn:Hi; [|reflexivity].
  pose proof (lookup_lt_Some _ _ _ Hj) as Hjlt.
  pose proof (lookup_lt_Some _ _ _ Hi) as Hilt.
  apply Permutation_inj. split; [by rewrite !length_insert|].
  exists (λ k, if decide (k = j) then i else if decide (k = i) then j else k).
  split.
  - intros k1 k2. repeat case_decide; lia.
  - intros k. repeat case_decide; subst.
    + rewrite list_lookup_insert_eq by (by rewrite length_insert). done.
    + rewrite list_lookup_insert_ne by done.
      rewrite list_lookup_insert_eq by done. done.
    + by rewrite !list_lookup_insert_ne by done.
Qed.

Lemma shuffle_loop_Permutation {A} (draw : nat → nat) (i : nat) :
  ∀ x : list A, shuffle_loop draw i x ≡ₚ x.
Proof.
  induction i as [|i IH]; intros x; [reflexivity|].
  cbn [shuffle_loop]. rewrite IH. apply swap_Permutation.
Qed.

Lemma shuffle_Permutation {A} (draw : nat → nat) (x : list A) :
  shuffle draw x ≡ₚ x.
Proof. apply shuffle_loop_Permutation. Qed.

(** The entries [prepare_study_cards] builds carry the cards in deck order
    and the positions [0, 1, ...] as original indices. *)
Lemma make_study_card_data (d : option string) (cs : list card) :
  Fc4.card_data <$> imap (Fc4.make_study_card d) cs = cs.
Proof.
  rewrite fmap_imap. rewrite (imap_ext _ (λ _ c, c)) by done.
  rewrite (imap_const id). apply list_fmap_id.
Qed.

Lemma make_study_card_index (d : option string) (cs : list card) :
  Fc4.original_index <$> imap (Fc4.make_study_card d) cs = seq 0 (length cs).
Proof.
  rewrite fmap_imap. rewrite (imap_ext _ (λ i _, i)) by done.
  rewrite imap_seq_0. apply list_fmap_id.
Qed.

(** C4 (as amended). In [fc4.py] the sequential start gives the cards of
    the deck in deck order, entry [i] carrying original index [i], and the
    random start a permutation of that list; which of the two is run is
    the mode. In [flashcard_app_improved.py] no mode takes part: the list
    is shuffled when the number drawn by [random.random()] is below one
    half and left in deck order otherwise; it is a permutation of the deck
    either way. *)
Theorem initial_order :
  (∀ a : Fc4.app,
     let cs := Fc4.get_deck_cards a (Fc4.current_deck a) in
     Fc4.study_mode (Fc4.start_sequential a) = Fc4.sequential
     ∧ Fc4.card_data <$> Fc4.study_cards (Fc4.start_sequential a) = cs
     ∧ Fc4.original_index <$> Fc4.study_cards (Fc4.start_sequential a)
       = seq 0 (length cs)
     ∧ ∀ draw,
         Fc4.study_mode (Fc4.start_random draw a) = Fc4.random
         ∧ Fc4.study_cards (Fc4.start_random draw a)
           ≡ₚ Fc4.study_cards (Fc4.start_sequential a)
         ∧ Fc4.original_index <$> Fc4.study_cards (Fc4.start_random draw a)
           ≡ₚ seq 0 (length cs))
  ∧ (∀ (now u : Q) (draw : nat → nat) (a : Improved.app),
       Improved.study_cards (Improved.start_study_session now u draw a).1
       = (if Qlt_le_dec u (1 # 2)
          then shuffle draw (Improved.study_cards a)
          else Improved.study_cards a)
       ∧ Improved.study_cards (Improved.start_study_session now u draw a).1
         ≡ₚ Improved.study_cards a).
Proof.
  split.
  - intros a cs. split; [reflexivity|].
    split; [apply make_study_card_data|].
    split; [apply make_study_card_index|].
    intros draw. split; [reflexivity|].
    assert (Hp : Fc4.study_cards (Fc4.start_random draw a)
                 ≡ₚ Fc4.study_cards (Fc4.start_sequential a))
      by apply shuffle_Permutation.
    split; [exact Hp|].
    rewrite Hp. cbn. by rewrite make_study_card_index.
  - intros now u draw a.
    assert (Hs : Improved.study_cards
                   (Improved.start_study_session now u draw a).1
                 = if Qlt_le_dec u (1 # 2)
                   then shuffle draw (Improved.study_cards a)
                   else Improved.study_cards a).
    { unfold Improved.start_study_session, Improved.show_study_card,
        Improved.finish_study_session.
      destruct (Qlt_le_dec u (1 # 2)); cbn; case_decide; reflexivity. }
    split; [exact Hs|]. rewrite Hs.
    destruct (Qlt_le_dec u (1 # 2)); [apply shuffle_Permutation | reflexivity].
Qed.

(** C4, the claim as written fails on the second variant: with the mode
    field at ["sequential"], a draw of [0] by [random.random()] has the
    two cards of the deck studied in the reverse of deck order. *)
Lemma initial_order_counterexample :
  Improved.study_mode (improved_app [two_plus_two; three_plus_three])
    = "sequential"
  ∧ Improved.study_cards
      (Improved.study_deck 0 0 zero_draws "d"
         (improved_app [two_plus_two; three_plus_three])).1
    = [three_plus_three; two_plus_two].
Proof. split; evaluate. Qed.

End Build_queue.

(** ** Showing the answer and going back *)

Section Reveal_and_back.

(** C7 (as amended). In [flashcard_app_improved.py], on a state that shows
    a card, [toggle_answer] sets [show_answer] and a second call changes
    nothing. In [fc4.py], [toggle_answer] negates [show_answer]: it shows a
    hidden answer and hides a shown one, and a second call undoes the
    first. *)
Theorem toggle_answer_twice :
  (∀ (now : Q) (a : Improved.app),
     Improved.current_card_index a < length (Improved.study_cards a) →
     Improved.show_answer (Improved.toggle_answer now a).1 = true
     ∧ Improved.toggle_answer now (Improved.toggle_answer now a).1
       = Improved.toggle_answer now a)
  ∧ (∀ a : Fc4.app,
       Fc4.show_answer (Fc4.toggle_answer a) = negb (Fc4.show_answer a)
       ∧ Fc4.toggle_answer (Fc4.toggle_answer a) = a).
Proof.
  split.
  - intros now a Hact.
    unfold Improved.toggle_answer, Improved.show_study_card. cbn.
    case_decide; [lia|]. cbn. split; [reflexivity|].
    case_decide; [lia|]. reflexivity.
  - intros [ds d i m b q k]. split; [reflexivity|].
    unfold Fc4.toggle_answer, Fc4.set_show_answer. cbn.
    by rewrite negb_involutive.
Qed.

Lemma toggle_answer_twice_witness :
  Improved.current_card_index
    (Improved.study_deck 0 1 zero_draws "d" (improved_app [two_plus_two])).1
  < length (Improved.study_cards
      (Improved.study_deck 0 1 zero_draws "d" (improved_app [two_plus_two])).1)
  ∧ Improved.show_answer
      (Improved.toggle_answer 0
         (Improved.study_deck 0 1 zero_draws "d"
            (improved_app [two_plus_two])).1).1 = true.
Proof.
  assert (H : Improved.current_card_index
                (Improved.study_deck 0 1 zero_draws "d"
                   (improved_app [two_plus_two])).1
              < length (Improved.study_cards
                  (Improved.study_deck 0 1 zero_draws "d"
                     (improved_app [two_plus_two])).1))
    by (vm_compute; lia).
  split; [exact H|].
  exact (proj1 (proj1 toggle_answer_twice 0%Q _ H)).
Defined.

(** C7, the claim as written fails on the first variant: the second call
    of [toggle_answer] hides the answer that the first one showed. *)
Lemma toggle_answer_twice_counterexample :
  Fc4.show_answer two_card_session = false
  ∧ Fc4.show_answer (Fc4.toggle_answer two_card_session) = true
  ∧ Fc4.show_answer (Fc4.toggle_answer (Fc4.toggle_answer two_card_session))
    = false
  ∧ Fc4.toggle_answer (Fc4.toggle_answer two_card_session)
    ≠ Fc4.toggle_answer two_card_session.
Proof.
  do 3 (split; [evaluate|]).
  intros H. apply (f_equal Fc4.show_answer) in H. vm_compute in H. done.
Qed.

(** C9 (as amended). At index [0], [prev_card] returns the state as it is:
    nothing is raised and nothing is reported. At an index above [0] it
    takes one off the index and hides the answer, and leaves the list and
    the known set alone. *)
Theorem prev_card_guard (a : Fc4.app) :
  (Fc4.current_card_index a = 0 → Fc4.prev_card a = a)
  ∧ (0 < Fc4.current_card_index a →
     Fc4.current_card_index (Fc4.prev_card a) = Fc4.current_card_index a - 1
     ∧ Fc4.show_answer (Fc4.prev_card a) = false
     ∧ Fc4.study_cards (Fc4.prev_card a) = Fc4.study_cards a
     ∧ Fc4.known_cards (Fc4.prev_card a) = Fc4.known_cards a).
Proof.
  unfold Fc4.prev_card. split; intros H; case_decide; try lia; done.
Qed.

Lemma prev_card_guard_witness :
  (Fc4.current_card_index two_card_session = 0
   ∧ Fc4.prev_card two_card_session = two_card_session)
  ∧ (0 < Fc4.current_card_index (Fc4.next_card two_card_session)
     ∧ Fc4.current_card_index (Fc4.prev_card (Fc4.next_card two_card_session))
       = Fc4.current_card_index (Fc4.next_card two_card_session) - 1).
Proof.
  assert (H0 : Fc4.current_card_index two_card_session = 0) by reflexivity.
  assert (H1 : 0 < Fc4.current_card_index (Fc4.next_card two_card_session))
    by (vm_compute; lia).
  split.
  - split; [exact H0|]. exact (proj1 (prev_card_guard two_card_session) H0).
  - split; [exact H1|].
    exact (proj1 (proj2 (prev_card_guard (Fc4.next_card two_card_session)) H1)).
Defined.

(** C9, the claim as written fails: at index [0] of a session that shows a
    card, [prev_card] returns, and returns the state unchanged. *)
Lemma prev_card_guard_counterexample :
  Fc4.is_complete two_card_session = false
  ∧ Fc4.current_card_index two_card_session = 0
  ∧ Fc4.prev_card two_card_session = two_card_session.
Proof. repeat split; evaluate. Qed.

End Reveal_and_back.

(** ** Decks without cards *)

Section Empty_deck.

Lemma length_shuffle {A} (draw : nat → nat) (x : list A) :
  length (shuffle draw x) = length x.
Proof. apply Permutation_length, shuffle_Permutation. Qed.





End Empty_deck.

(** ** The figures shown at the end of a session *)

Section Summary.

(** [show_study_card] of the second variant adds at most a history record:
    the session fields are those of its argument. *)
Lemma show_study_card_fields (now : Q) (a : Improved.app) :
  Improved.current_card_index (Improved.show_study_card now a).1
    = Improved.current_card_index a
  ∧ Improved.known_cards (Improved.show_study_card now a).1
    = Improved.known_cards a
  ∧ Improved.session_start_time (Improved.show_study_card now a).1
    = Improved.session_start_time a.
Proof.
  unfold Improved.show_study_card, Improved.finish_study_session.
  case_decide; [|done].
  destruct (Improved.session_start_time a) eqn:Ht; cbn; by rewrite ?Ht.
Qed.

(** The effect of one handler call on the index and on the known set. *)
Lemma perform_fields (now : Q) (e : Improved.action) (a : Improved.app) :
  Improved.session_start_time (Improved.perform now e a).1
    = Improved.session_start_time a
  ∧ match e with
    | Improved.Toggle =>
        Improved.current_card_index (Improved.perform now e a).1
          = Improved.current_card_index a
        ∧ Improved.known_cards (Improved.perform now e a).1
          = Improved.known_cards a
    | Improved.Grade knew_it =>
        Improved.current_card_index (Improved.perform now e a).1
          = Improved.current_card_index a + 1
        ∧ Improved.known_cards (Improved.perform now e a).1
          = (if knew_it
             then Improved.known_cards a ∪ {[ Improved.current_card_index a ]}
             else Improved.known_cards a)
    end.
Proof.
  destruct e as [|knew_it]; cbn [Improved.perform].
  - unfold Improved.toggle_answer.
    destruct (show_study_card_fields now (Improved.set_show_answer true a))
      as (-> & -> & ->). done.
  - unfold Improved.next_card.
    match goal with |- context [Improved.show_study_card now ?b] =>
      destruct (show_study_card_fields now b) as (-> & -> & ->) end.
    by destruct knew_it.
Qed.

Lemma session_invariant_start (now u : Q) (draw : nat → nat)
    (a : Improved.app) :
  session_invariant (Improved.start_study_session now u draw a).1.
Proof.
  unfold Improved.start_study_session.
  match goal with |- context [Improved.show_study_card now ?b] =>
    destruct (show_study_card_fields now b) as (Hi & Hk & Ht);
    unfold session_invariant; rewrite Hi, Hk, Ht end.
  destruct (Qlt_le_dec u (1 # 2)); cbn; (split; [set_solver | eauto]).
Qed.

Lemma session_invariant_perform (now : Q) (e : Improved.action)
    (a : Improved.app) :
  session_invariant a → session_invariant (Improved.perform now e a).1.
Proof.
  intros [Hk Ht]. unfold session_invariant.
  destruct (perform_fields now e a) as [-> He]. split; [|exact Ht].
  destruct e as [|[]]; destruct He as [-> ->]; intros i Hin.
  - by apply Hk.
  - apply elem_of_union in Hin as [Hin|Hin%elem_of_singleton].
    + apply Hk in Hin. lia.
    + lia.
  - apply Hk in Hin. lia.
Qed.

Lemma session_invariant_perform_all (es : list (Q * Improved.action)) :
  ∀ a, session_invariant a → session_invariant (Improved.perform_all es a).
Proof.
  induction es as [|[now e] es IH]; intros a Ha; [exact Ha|].
  cbn [Improved.perform_all]. by apply IH, session_invariant_perform.
Qed.

Lemma known_below_index_size (k : gset nat) (n : nat) :
  (∀ i, i ∈ k → i < n) → size k ≤ n.
Proof.
  intros Hk. rewrite <-(size_set_seq (C:=gset nat) 0 n).
  apply subseteq_size. intros i Hi. apply elem_of_set_seq.
  specialize (Hk i Hi). lia.
Qed.

(** A share of a non-empty whole, as a percentage, is within 0 and 100. *)
Lemma percentage_bounds (k n : nat) :
  k ≤ n → 0 < n →
  (0 <= Improved.percentage k n)%Q ∧ (Improved.percentage k n <= 100)%Q.
Proof.
  intros Hkn Hn. unfold Improved.percentage.
  assert (Hpos : (0 < inject_Z (Z.of_nat n))%Q).
  { change 0%Q with (inject_Z 0). rewrite <-Zlt_Qlt. lia. }
  assert (H0 : (0 <= inject_Z (Z.of_nat k) / inject_Z (Z.of_nat n))%Q).
  { apply Qle_shift_div_l; [exact Hpos|]. rewrite Qmult_0_l.
    change 0%Q with (inject_Z 0). rewrite <-Zle_Qle. lia. }
  assert (H1 : (inject_Z (Z.of_nat k) / inject_Z (Z.of_nat n) <= 1)%Q).
  { apply Qle_shift_div_r; [exact Hpos|]. rewrite Qmult_1_l.
    rewrite <-Zle_Qle. lia. }
  split.
  - apply Qmult_le_0_compat; [exact H0 | done].
  - change 100%Q with (1 * 100)%Q at 2.
    apply Qmult_le_compat_r; [exact H1 | done].
Qed.

(** C10. In [flashcard_app_improved.py] a handler call never takes the
    index down; a grading call adds at most the index it finds to the
    known set and then moves the index on by one. So, after any run of
    handler calls from the start of a session, every known position is
    below the index, the known set is no larger than the index, and the
    summary reports no more known cards than studied ones and an accuracy
    between 0 and 100. *)
Theorem known_positions_below_index :
  (∀ (now : Q) (e : Improved.action) (a : Improved.app),
     Improved.current_card_index a
       ≤ Improved.current_card_index (Improved.perform now e a).1
     ∧ Improved.known_cards (Improved.perform now e a).1
       ⊆ Improved.known_cards a ∪ {[ Improved.current_card_index a ]}
     ∧ ∀ knew_it, e = Improved.Grade knew_it →
         Improved.current_card_index (Improved.perform now e a).1
         = Improved.current_card_index a + 1)
  ∧ (∀ (now u : Q) (draw : nat → nat) (a0 : Improved.app)
       (es : list (Q * Improved.action)) (t : Q),
       let a := Improved.perform_all es
                  (Improved.start_study_session now u draw a0).1 in
       (∀ i, i ∈ Improved.known_cards a → i < Improved.current_card_index a)
       ∧ size (Improved.known_cards a) ≤ Improved.current_card_index a
       ∧ ∃ r, (Improved.finish_study_session t a).2
              = Improved.MainMenu (Some r)
              ∧ Improved.studied r = Improved.current_card_index a
              ∧ Improved.known r = size (Improved.known_cards a)
              ∧ Improved.known r ≤ Improved.studied r
              ∧ (0 <= Improved.accuracy r)%Q
              ∧ (Improved.accuracy r <= 100)%Q).
Proof.
  split.
  - intros now e a. destruct (perform_fields now e a) as [_ He].
    destruct e as [|[]]; destruct He as [-> ->];
      (split; [lia|]); (split; [set_solver|]); intros k Hk; by inversion Hk.
  - intros now u draw a0 es t a.
    destruct (session_invariant_perform_all es _
                (session_invariant_start now u draw a0)) as [Hk [t0 Ht]].
    fold a in Hk, Ht. pose proof (known_below_index_size _ _ Hk) as Hsize.
    split; [exact Hk|]. split; [exact Hsize|].
    unfold Improved.finish_study_session. rewrite Ht. cbn.
    eexists. split; [reflexivity|]. cbn.
    do 3 (split; [done|]).
    case_decide as Hpos; [by apply percentage_bounds | done].
Qed.

(** X4. In a session of the first variant that is driven by the buttons,
    completion is reached by "I know this" alone, so that the known set
    of a complete session is not empty. *)
Lemma click_complete_known (b : Fc4.button) (a a' : Fc4.app) :
  Fc4.click b a = Some a' →
  Fc4.is_complete a' = true →
  Fc4.known_cards a' ≠ ∅.
Proof.
  unfold Fc4.click, Fc4.show_study_card, Fc4.is_complete.
  case_decide as Hact; [done|]. case_decide as Hb; [|done].
  destruct (lookup_lt_is_Some_2 (Fc4.study_cards a) (Fc4.current_card_index a))
    as [e He]; [lia|].
  intros Hclick Hc%bool_decide_eq_true.
  destruct b.
  - injection Hclick as <-. cbn in Hc. lia.
  - injection Hclick as <-. cbn in Hc. lia.
  - injection Hclick as <-. unfold Fc4.prev_card in Hc.
    case_decide; cbn in Hc; lia.
  - injection Hclick as <-. exfalso. revert Hb Hc.
    unfold Fc4.study_buttons.
    destruct (decide (Fc4.current_card_index a
                      < length (Fc4.study_cards a) - 1)); [cbn; lia|].
    destruct (Fc4.show_answer a), (decide (0 < Fc4.current_card_index a)),
      (bool_decide (0 < length (Fc4.study_cards a))); cbn;
      intros Hin%list_elem_of_In _; cbn in Hin; intuition discriminate.
  - done.
  - rewrite (mark_as_known_at a e He) in Hclick. injection Hclick as <-.
    cbn. intros Hempty.
    apply (not_elem_of_empty (C:=gset string) (Fc4.card_id e)).
    rewrite <-Hempty. by apply elem_of_union_r, elem_of_singleton.
  - rewrite (need_more_study_at a e He) in Hclick. injection Hclick as <-.
    cbn in Hc. rewrite length_app in Hc. cbn in Hc. lia.
Qed.

End Summary.

(** ** Sessions driven by the buttons ([fc4.py]) *)

Section Fc4_clicks.
Import Fc4.

(** The state a click leads to, button by button, on a screen that shows
    the entry [e]. *)
Lemma click_cases (b : button) (a a' : app) :
  click b a = Some a' →
  ∃ e, study_cards a !! current_card_index a = Some e
       ∧ b ∈ study_buttons a
       ∧ match b with
         | ShowAnswer | HideAnswer => a' = toggle_answer a
         | Previous => a' = prev_card a
         | Next => a' = next_card a
                   ∧ current_card_index a < length (study_cards a) - 1
         | EndSession => False
         | IKnowThis => mark_as_known a = Some a'
         | NeedMoreStudy => need_more_study a = Some a'
         end.
Proof.
  unfold click, show_study_card.
  case_decide as Hact; [done|]. case_decide as Hb; [|done].
  destruct (lookup_lt_is_Some_2 (study_cards a) (current_card_index a))
    as [e He]; [lia|].
  intros Hclick. exists e. split; [exact He|]. split; [exact Hb|].
  destruct b; try (by injection Hclick as <-); try done.
  injection Hclick as <-. split; [done|].
  revert Hb. unfold study_buttons.
  destruct (decide (current_card_index a < length (study_cards a) - 1));
    [done|].
  destruct (show_answer a), (decide (0 < current_card_index a)),
    (bool_decide (0 < length (study_cards a))); cbn;
    intros Hin%list_elem_of_In; cbn in Hin; intuition discriminate.
Qed.

(** What a click does to the list and to the known set. *)
Lemma click_effect (b : button) (a a' : app) :
  click b a = Some a' →
  ∃ e, study_cards a !! current_card_index a = Some e
       ∧ decks a' = decks a ∧ current_deck a' = current_deck a
       ∧ match b with
         | IKnowThis =>
             study_cards a' = delete (current_card_index a) (study_cards a)
             ∧ known_cards a' = known_cards a ∪ {[ card_id e ]}
         | NeedMoreStudy =>
             (∃ i1 i2,
                study_cards a'
                = study_cards a
                  ++ [StudyCard (original_index e) (card_data e) i1;
                      StudyCard (original_index e) (card_data e) i2])
             ∧ known_cards a' = known_cards a
         | _ =>
             study_cards a' = study_cards a
             ∧ known_cards a' = known_cards a
         end.
Proof.
  intros (e & He & Hb & Hcase)%click_cases. exists e. split; [exact He|].
  destruct b; try done.
  - by subst a'.
  - by subst a'.
  - subst a'. unfold prev_card. by case_decide.
  - destruct Hcase as [-> _]. done.
  - rewrite (mark_as_known_at a e He) in Hcase. by injection Hcase as <-.
  - rewrite (need_more_study_at a e He) in Hcase. injection Hcase as <-.
    cbn. eauto 10.
Qed.

(** X1. On a screen that shows a card of a deck that has cards, a click
    on any button the screen carries, other than "End Session", goes
    through: the handler finds the entry it works on, and the screen it
    draws at its end is drawn without error, the completion screen with
    its rate over the size of the deck included. *)
Theorem click_never_raises (b : button) (a : app) :
  is_complete a = false →
  get_deck_cards a (current_deck a) ≠ [] →
  b ∈ study_buttons a →
  b ≠ EndSession →
  ∃ a', click b a = Some a'
        ∧ show_study_card a' ≠ StudyComplete None.
Proof.
  intros Hact%bool_decide_eq_false Hdeck Hb Hend.
  assert (Hsome : is_Some (click b a)).
  { unfold click, show_study_card.
    rewrite decide_False by done. rewrite decide_True by done.
    destruct (lookup_lt_is_Some_2 (study_cards a) (current_card_index a))
      as [e He]; [lia|].
    destruct b; try done.
    - rewrite (mark_as_known_at a e He). done.
    - rewrite (need_more_study_at a e He). done. }
  destruct Hsome as [a' Ha']. exists a'. split; [exact Ha'|].
  apply click_effect in Ha' as (_ & _ & Hdecks & Hcur & _).
  assert (Hsame : get_deck_cards a' (current_deck a')
                  = get_deck_cards a (current_deck a))
    by (unfold get_deck_cards; by rewrite Hdecks, Hcur).
  unfold show_study_card, study_complete. rewrite Hsame.
  case_decide; [|done]. case_decide; [|done].
  rewrite decide_False; [done|].
  destruct (get_deck_cards a (current_deck a)); [done | cbn; lia].
Qed.

Lemma click_never_raises_witness :
  is_complete (toggle_answer two_card_session) = false
  ∧ get_deck_cards (toggle_answer two_card_session)
      (current_deck (toggle_answer two_card_session)) ≠ []
  ∧ IKnowThis ∈ study_buttons (toggle_answer two_card_session)
  ∧ ∃ a', click IKnowThis (toggle_answer two_card_session) = Some a'
          ∧ show_study_card a' ≠ StudyComplete None.
Proof.
  assert (H1 : is_complete (toggle_answer two_card_session) = false)
    by reflexivity.
  assert (H2 : get_deck_cards (toggle_answer two_card_session)
                 (current_deck (toggle_answer two_card_session)) ≠ [])
    by (vm_compute; discriminate).
  assert (H3 : IKnowThis ∈ study_buttons (toggle_answer two_card_session))
    by (apply list_elem_of_In; vm_compute; tauto).
  split; [exact H1|]. split; [exact H2|]. split; [exact H3|].
  exact (click_never_raises IKnowThis _ H1 H2 H3 ltac:(discriminate)).
Defined.

(** X2. Every entry of the list of a session, whatever was clicked since
    the sequential or the random start, carries the card that its original
    index has in the deck: shuffling, removal and duplication keep entries
    and deck in step. *)
Theorem entries_match_deck (a : app) (draw : nat → nat) (bs : list button)
    (a' : app) (e : study_card) :
  clicks bs (start_sequential a) = Some a'
  ∨ clicks bs (start_random draw a) = Some a' →
  e ∈ study_cards a' →
  get_deck_cards a (current_deck a) !! original_index e = Some (card_data e).
Proof.
  set (P := λ e : study_card,
         get_deck_cards a (current_deck a) !! original_index e
         = Some (card_data e)).
  assert (Hstep : ∀ bs a1 a2,
            Forall P (study_cards a1) → clicks bs a1 = Some a2 →
            Forall P (study_cards a2)).
  { clear. intros bs. induction bs as [|b bs IH]; intros a1 a2 HP Hrun.
    - by injection Hrun as <-.
    - cbn in Hrun. destruct (click b a1) as [a1'|] eqn:Hb; [|done].
      cbn in Hrun. apply (IH a1' a2); [|exact Hrun].
      apply click_effect in Hb as (e & He & _ & _ & Hcase).
      assert (HPe : P e)
        by (eapply Forall_forall; [exact HP | by eapply list_elem_of_lookup_2]).
      destruct b; try (destruct Hcase as [-> _]; exact HP).
      + destruct Hcase as [-> _]. by apply Forall_delete.
      + destruct Hcase as [(i1 & i2 & ->) _].
        apply Forall_app. split; [exact HP|]. by repeat constructor. }
  assert (Hseq : Forall P (study_cards (start_sequential a))).
  { apply Forall_forall. intros x Hx.
    apply list_elem_of_lookup in Hx as [i Hi]. cbn in Hi.
    rewrite list_lookup_imap in Hi.
    change (get_deck_cards (set_study_mode sequential a) (current_deck a))
      with (get_deck_cards a (current_deck a)) in Hi.
    destruct (get_deck_cards a (current_deck a) !! i) as [c|] eqn:Hc;
      cbn in Hi; [|done].
    injection Hi as <-. exact Hc. }
  assert (Hrnd : Forall P (study_cards (start_random draw a))).
  { change (study_cards (start_random draw a))
      with (shuffle draw (study_cards (start_sequential a))).
    by rewrite shuffle_Permutation. }
  intros [Hrun|Hrun] He.
  - exact (proj1 (Forall_forall _ _) (Hstep _ _ _ Hseq Hrun) e He).
  - exact (proj1 (Forall_forall _ _) (Hstep _ _ _ Hrnd Hrun) e He).
Qed.

Lemma entries_match_deck_witness :
  ∃ a' e,
    clicks requeue_then_known (start_sequential (fc4_app [two_plus_two]))
      = Some a'
    ∧ e ∈ study_cards a'
    ∧ get_deck_cards (fc4_app [two_plus_two])
        (current_deck (fc4_app [two_plus_two])) !! original_index e
      = Some (card_data e).
Proof.
  eexists _, (make_study_card (Some "d") 0 two_plus_two).
  assert (H1 : clicks requeue_then_known
                 (start_sequential (fc4_app [two_plus_two]))
               = Some (App {[ "d" := [two_plus_two] ]} (Some "d") 0 sequential
                         false [make_study_card (Some "d") 0 two_plus_two]
                         {[ "d_0_dup_1"; "d_0_dup_2" ]}))
    by evaluate.
  assert (H2 : make_study_card (Some "d") 0 two_plus_two
               ∈ [make_study_card (Some "d") 0 two_plus_two])
    by apply list_elem_of_here.
  split; [exact H1|]. split; [exact H2|].
  exact (entries_match_deck _ zero_draws _ _ _ (or_introl H1) H2).
Defined.

Lemma count_button_cons (b b' : button) (bs : list button) :
  count_button b (b' :: bs)
  = (if decide (b = b') then 1 else 0) + count_button b bs.
Proof.
  unfold count_button. rewrite filter_cons. by case_decide.
Qed.

(** X3. The bookkeeping of a run of clicks: every "need more study" makes
    the list two entries longer and every "I know this" one entry shorter,
    nothing else changes its length; the known set only grows, by at most
    one element for each "I know this". *)
Theorem clicks_accounting (bs : list button) : ∀ a a' : app,
  clicks bs a = Some a' →
  length (study_cards a') + count_button IKnowThis bs
  = length (study_cards a) + 2 * count_button NeedMoreStudy bs
  ∧ known_cards a ⊆ known_cards a'
  ∧ size (known_cards a') ≤ size (known_cards a) + count_button IKnowThis bs.
Proof.
  induction bs as [|b bs IH]; intros a a' Hrun.
  - injection Hrun as <-. cbn. split; [lia|]. split; [done | lia].
  - cbn in Hrun. destruct (click b a) as [a1|] eqn:Hb; [|done].
    cbn in Hrun. destruct (IH a1 a' Hrun) as (Hlen & Hsub & Hsize).
    apply click_effect in Hb as (e & He & _ & _ & Hcase).
    pose proof (lookup_lt_Some _ _ _ He) as Hlt.
    rewrite !count_button_cons.
    destruct b;
      try (destruct Hcase as [Hq Hk]; rewrite Hq in Hlen;
           rewrite Hk in Hsub, Hsize; rewrite !decide_False by done;
           split; [lia|]; split; [done | lia]).
    + destruct Hcase as [Hq Hk].
      rewrite Hq, length_delete in Hlen by eauto.
      rewrite decide_True by done. rewrite decide_False by done.
      split; [lia|]. split.
      * etrans; [|exact Hsub]. rewrite Hk. apply union_subseteq_l.
      * rewrite Hk, size_union_alt in Hsize.
        assert (size ({[card_id e]} ∖ known_cards a : gset string) ≤ 1).
        { rewrite <-(size_singleton (C:=gset string) (card_id e)).
          apply subseteq_size, subseteq_difference_l. done. }
        lia.
    + destruct Hcase as [(i1 & i2 & Hq) Hk].
      rewrite Hq, length_app in Hlen. cbn in Hlen.
      rewrite Hk in Hsub, Hsize.
      rewrite decide_False by done. rewrite decide_True by done.
      split; [lia|]. split; [done | lia].
Qed.

Lemma clicks_accounting_witness :
  ∃ a',
    clicks requeue_then_known (start_sequential (fc4_app [two_plus_two]))
      = Some a'
    ∧ length (study_cards a') + count_button IKnowThis requeue_then_known
      = length (study_cards (start_sequential (fc4_app [two_plus_two])))
        + 2 * count_button NeedMoreStudy requeue_then_known.
Proof.
  assert (H1 : clicks requeue_then_known
                 (start_sequential (fc4_app [two_plus_two]))
               = Some (App {[ "d" := [two_plus_two] ]} (Some "d") 0 sequential
                         false [make_study_card (Some "d") 0 two_plus_two]
                         {[ "d_0_dup_1"; "d_0_dup_2" ]}))
    by evaluate.
  eexists. split; [exact H1|].
  exact (proj1 (clicks_accounting _ _ _ H1)).
Defined.

(** X5. Showing, hiding and moving with "Previous" and "Next" only look at
    the session: after any run of such clicks the list and the known set
    are what they were, and the screen still shows a card. *)
Theorem navigation_changes_nothing (bs : list button) : ∀ a a' : app,
  forallb is_navigation bs = true →
  clicks bs a = Some a' →
  is_complete a = false →
  study_cards a' = study_cards a
  ∧ known_cards a' = known_cards a
  ∧ is_complete a' = false.
Proof.
  induction bs as [|b bs IH]; intros a a' Hnav Hrun Hact.
  - by injection Hrun as <-.
  - cbn in Hnav, Hrun. apply andb_prop in Hnav as [Hb Hbs].
    destruct (click b a) as [a1|] eqn:Hclick; [|done]. cbn in Hrun.
    assert (H1 : study_cards a1 = study_cards a
                 ∧ known_cards a1 = known_cards a
                 ∧ is_complete a1 = false).
    { apply bool_decide_eq_false in Hact.
      apply click_cases in Hclick as (e & He & _ & Hcase).
      unfold is_complete. rewrite bool_decide_eq_false.
      destruct b; try done.
      - subst a1. cbn. split; [done|]. split; [done | lia].
      - subst a1. cbn. split; [done|]. split; [done | lia].
      - subst a1. unfold prev_card. case_decide; cbn;
          (split; [done|]); (split; [done | lia]).
      - destruct Hcase as [-> Hlt]. cbn. split; [done|]. split; [done | lia]. }
    destruct H1 as (Hq & Hk & Hact1).
    destruct (IH a1 a' Hbs Hrun Hact1) as (Hq' & Hk' & Hact').
    by rewrite Hq', Hk', Hq, Hk.
Qed.

Lemma navigation_changes_nothing_witness :
  forallb is_navigation [ShowAnswer; Next; Previous] = true
  ∧ (∃ a', clicks [ShowAnswer; Next; Previous] two_card_session = Some a'
           ∧ study_cards a' = study_cards two_card_session)
  ∧ is_complete two_card_session = false.
Proof.
  assert (H1 : forallb is_navigation [ShowAnswer; Next; Previous] = true)
    by reflexivity.
  assert (H2 : clicks [ShowAnswer; Next; Previous] two_card_session
               = Some two_card_session) by evaluate.
  assert (H3 : is_complete two_card_session = false) by reflexivity.
  split; [exact H1|]. split; [|exact H3].
  eexists. split; [exact H2|].
  exact (proj1 (navigation_changes_nothing _ _ _ H1 H2 H3)).
Defined.

Lemma click_complete_known_witness :
  ∃ a',
    click IKnowThis
      (toggle_answer (start_sequential (fc4_app [two_plus_two]))) = Some a'
    ∧ is_complete a' = true
    ∧ known_cards a' ≠ ∅.
Proof.
  assert (H1 : click IKnowThis
                 (toggle_answer (start_sequential (fc4_app [two_plus_two])))
               = Some (App {[ "d" := [two_plus_two] ]} (Some "d") 0
                         sequential false [] (∅ ∪ {[ "d_0" ]})))
    by evaluate.
  assert (H2 : is_complete
                 (App {[ "d" := [two_plus_two] ]} (Some "d") 0 sequential
                    false [] (∅ ∪ {[ "d_0" ]})) = true) by reflexivity.
  eexists. split; [exact H1|]. split; [exact H2|].
  exact (click_complete_known _ _ _ H1 H2).
Defined.

End Fc4_clicks.

(** ** The rate on the summary *)

Section Summary_rate.

(** A click that completes a session is an "I know this" click, on the
    one entry that was left. *)
Lemma click_completes (b : Fc4.button) (a a' : Fc4.app) :
  Fc4.click b a = Some a' →
  Fc4.is_complete a' = true →
  b = Fc4.IKnowThis
  ∧ 0 < size (Fc4.known_cards a')
  ∧ Fc4.current_card_index a' = 0.
Proof.
  intros Hclick Hc%bool_decide_eq_true.
  pose proof (click_cases _ _ _ Hclick) as (e & He & _ & Hcase).
  pose proof (lookup_lt_Some _ _ _ He) as Hlt.
  destruct b; try done.
  - subst a'. cbn in Hc. lia.
  - subst a'. cbn in Hc. lia.
  - subst a'. unfold Fc4.prev_card in Hc. case_decide; cbn in Hc; lia.
  - destruct Hcase as [-> Hnext]. cbn in Hc. lia.
  - rewrite (mark_as_known_at a e He) in Hcase. injection Hcase as <-.
    cbn in *. split; [done|]. split.
    + pose proof (subseteq_size (C:=gset string) {[ Fc4.card_id e ]}
                    (Fc4.known_cards a ∪ {[ Fc4.card_id e ]})
                    (union_subseteq_r _ _)) as Hsize.
      rewrite size_singleton in Hsize. lia.
    + case_decide; [lia | done].
  - rewrite (need_more_study_at a e He) in Hcase. injection Hcase as <-.
    cbn in Hc. rewrite length_app in Hc. cbn in Hc. lia.
Qed.

(** A run of clicks leaves the decks and the current deck alone, and a
    run that ends in a complete session has made a card known. *)
Lemma clicks_complete (bs : list Fc4.button) : ∀ a a' : Fc4.app,
  Fc4.clicks bs a = Some a' →
  Fc4.decks a' = Fc4.decks a
  ∧ Fc4.current_deck a' = Fc4.current_deck a
  ∧ (Fc4.is_complete a = false → Fc4.is_complete a' = true →
     0 < size (Fc4.known_cards a') ∧ Fc4.current_card_index a' = 0).
Proof.
  induction bs as [|b bs IH]; intros a a' Hrun.
  - injection Hrun as <-. split; [done|]. split; [done|]. congruence.
  - cbn in Hrun. destruct (Fc4.click b a) as [a1|] eqn:Hb; [|done].
    cbn in Hrun. destruct (IH a1 a' Hrun) as (Hd & Hc & Hk).
    pose proof (click_effect _ _ _ Hb) as (e & _ & Hd1 & Hc1 & _).
    split; [congruence|]. split; [congruence|].
    intros _ Hdone. destruct (Fc4.is_complete a1) eqn:H1; [|by apply Hk].
    destruct bs as [|b' bs].
    + injection Hrun as <-. by apply (click_completes b a a1).
    + exfalso. cbn in Hrun. unfold Fc4.click, Fc4.show_study_card in Hrun.
      apply bool_decide_eq_true in H1. by rewrite decide_True in Hrun.
Qed.

(** C5 (as amended). In [flashcard_app_improved.py] the summary of a
    started session always carries an accuracy: the known count over the
    studied count, which is the index, times 100 when cards were studied,
    [0] otherwise. In [fc4.py] every completion screen that a session
    over a deck with cards reaches through the buttons has a known count
    above [0] and the index at [0], and carries a mastery rate: the known
    count over the number of cards of the deck times 100. *)
Theorem summary_rate :
  (∀ (now t0 : Q) (a : Improved.app),
     Improved.session_start_time a = Some t0 →
     ∃ r, (Improved.finish_study_session now a).2 = Improved.MainMenu (Some r)
          ∧ Improved.studied r = Improved.current_card_index a
          ∧ Improved.known r = size (Improved.known_cards a)
          ∧ (0 < Improved.studied r →
             Improved.accuracy r
             = (inject_Z (Z.of_nat (Improved.known r))
                / inject_Z (Z.of_nat (Improved.studied r)) * 100)%Q)
          ∧ (Improved.studied r = 0 → Improved.accuracy r = 0%Q))
  ∧ (∀ (a : Fc4.app) (draw : nat → nat) (bs : list Fc4.button)
       (a' : Fc4.app),
       let n := length (Fc4.get_deck_cards a (Fc4.current_deck a)) in
       let k := size (Fc4.known_cards a') in
       0 < n →
       Fc4.clicks bs (Fc4.start_sequential a) = Some a'
       ∨ Fc4.clicks bs (Fc4.start_random draw a) = Some a' →
       Fc4.is_complete a' = true →
       0 < k
       ∧ Fc4.current_card_index a' = 0
       ∧ Fc4.show_study_card a'
         = Fc4.StudyComplete
             (Some (Fc4.Completion n k
                      (Some (inject_Z (Z.of_nat k) / inject_Z (Z.of_nat n)
                             * 100)%Q)))).
Proof.
  split.
  - intros now t0 a Ht. unfold Improved.finish_study_session. rewrite Ht.
    eexists. split; [reflexivity|]. cbn. do 2 (split; [done|]).
    split; intros H; case_decide; done || lia.
  - intros a draw bs a' n k Hn Hrun Hdone.
    assert (H : ∃ a1, Fc4.clicks bs a1 = Some a'
                      ∧ Fc4.decks a1 = Fc4.decks a
                      ∧ Fc4.current_deck a1 = Fc4.current_deck a
                      ∧ Fc4.current_card_index a1 = 0
                      ∧ length (Fc4.study_cards a1) = n).
    { destruct Hrun as [Hrun|Hrun]; eexists; (split; [exact Hrun|]);
        do 3 (split; [done|]).
      - cbn. by rewrite length_imap.
      - change (Fc4.study_cards (Fc4.start_random draw a))
          with (shuffle draw (Fc4.study_cards (Fc4.start_sequential a))).
        rewrite length_shuffle. cbn. by rewrite length_imap. }
    destruct H as (a1 & Hrun1 & Hd1 & Hc1 & Hi1 & Hlen1).
    destruct (clicks_complete bs a1 a' Hrun1) as (Hd & Hc & Hk).
    destruct Hk as [Hk Hi]; [|exact Hdone|].
    { unfold Fc4.is_complete. apply bool_decide_eq_false. lia. }
    split; [exact Hk|]. split; [exact Hi|].
    assert (Hsame : Fc4.get_deck_cards a' (Fc4.current_deck a')
                    = Fc4.get_deck_cards a (Fc4.current_deck a))
      by (unfold Fc4.get_deck_cards; by rewrite Hd, Hc, Hd1, Hc1).
    apply bool_decide_eq_true in Hdone.
    unfold Fc4.show_study_card, Fc4.study_complete.
    rewrite decide_True by done. rewrite Hsame. fold n k.
    rewrite decide_True by done. by rewrite decide_False by lia.
Qed.


Lemma summary_rate_witness :
  (Improved.session_start_time
     (Improved.next_card 30 false
        (Improved.study_deck 0 1 zero_draws "d"
           (improved_app [two_plus_two])).1).1 = Some 0%Q
   ∧ ∃ r, (Improved.finish_study_session 60
             (Improved.next_card 30 false
                (Improved.study_deck 0 1 zero_draws "d"
                   (improved_app [two_plus_two])).1).1).2
          = Improved.MainMenu (Some r)
          ∧ Improved.studied r = 1 ∧ Improved.known r = 0)
  ∧ (0 < length (Fc4.get_deck_cards
                   (fc4_app [two_plus_two; three_plus_three])
                   (Fc4.current_deck
                      (fc4_app [two_plus_two; three_plus_three])))
     ∧ ∃ a',
         Fc4.clicks next_then_known
           (Fc4.start_sequential (fc4_app [two_plus_two; three_plus_three]))
         = Some a'
         ∧ Fc4.is_complete a' = true
         ∧ Fc4.current_card_index a' = 0
         ∧ Fc4.show_study_card a'
           = Fc4.StudyComplete
               (Some (Fc4.Completion 2 2
                        (Some (inject_Z 2 / inject_Z 2 * 100)%Q)))).
Proof.
  split.
  - assert (Ht : Improved.session_start_time
                   (Improved.next_card 30 false
                      (Improved.study_deck 0 1 zero_draws "d"
                         (improved_app [two_plus_two])).1).1 = Some 0%Q)
      by reflexivity.
    split; [exact Ht|].
    destruct (proj1 summary_rate 60%Q 0%Q _ Ht) as (r & Hr & Hs & Hk & _).
    exists r. split; [exact Hr|]. split; [exact Hs | exact Hk].
  - set (a := fc4_app [two_plus_two; three_plus_three]).
    set (a' := Fc4.App {[ "d" := [two_plus_two; three_plus_three] ]}
                 (Some "d") 0 Fc4.sequential false [] {[ "d_0"; "d_1" ]}).
    assert (Hn : 0 < length (Fc4.get_deck_cards a (Fc4.current_deck a)))
      by (vm_compute; lia).
    assert (Hrun : Fc4.clicks next_then_known (Fc4.start_sequential a)
                   = Some a') by evaluate.
    assert (Hdone : Fc4.is_complete a' = true) by reflexivity.
    split; [exact Hn|]. exists a'. split; [exact Hrun|].
    split; [exact Hdone|].
    destruct (proj2 summary_rate a zero_draws next_then_known a' Hn
                (or_introl Hrun) Hdone) as (_ & Hi & Hshow).
    split; [exact Hi | exact Hshow].
Defined.

(** C5, the claim as written fails: no one studied count fits both
    variants. On the deck of the two sample cards, in the first variant,
    "Next" and then "I know this" on either card end the session with the
    index, the position, at [0], after three steps that graded or
    advanced, and with both cards known: the rate on the completion screen
    is [100], the known count over the two cards of the deck, and neither
    [0], which the claim has for a studied count of [0], nor the known
    count over the three steps. In the second variant, "End Session" with
    the first card graded as known and the second one on the screen gives
    an accuracy of [100], the known count over the one grading step, and
    not the known count over the two cards of the deck, both of which
    were shown. *)
Lemma summary_rate_counterexample :
  (∃ a' : Fc4.app,
     Fc4.clicks next_then_known two_card_session = Some a'
     ∧ Fc4.current_card_index a' = 0
     ∧ count_button Fc4.Next next_then_known
       + count_button Fc4.IKnowThis next_then_known
       + count_button Fc4.NeedMoreStudy next_then_known = 3
     ∧ Fc4.show_study_card a'
       = Fc4.StudyComplete
           (Some (Fc4.Completion 2 2 (Some (Fc4.percentage 2 2))))
     ∧ (Fc4.percentage 2 2 == 100)%Q
     ∧ ¬ (Fc4.percentage 2 2 == 0)%Q
     ∧ ¬ (Fc4.percentage 2 2 == Fc4.percentage 2 3)%Q)
  ∧ (let s := Improved.next_card 9 true
                (Improved.toggle_answer 5
                   (Improved.study_deck 0 1 zero_draws "d"
                      (improved_app [two_plus_two; three_plus_three])).1).1 in
     s.2 = Improved.StudyScreen (Some three_plus_three) false
             [Improved.ShowAnswer; Improved.EndSession]
     ∧ (Improved.finish_study_session 12 s.1).2
       = Improved.MainMenu
           (Some (Improved.Results 1 1 (Improved.percentage 1 1)
                    ((12 - 0) / 60)%Q))
     ∧ (Improved.percentage 1 1 == 100)%Q
     ∧ ¬ (Improved.percentage 1 1 == Improved.percentage 1 2)%Q).
Proof.
  split.
  - exists (Fc4.App {[ "d" := [two_plus_two; three_plus_three] ]}
              (Some "d") 0 Fc4.sequential false [] {[ "d_0"; "d_1" ]}).
    do 4 (split; [evaluate|]).
    split; [by vm_compute|].
    split; intros H; vm_compute in H; discriminate.
  - cbv zeta. do 2 (split; [evaluate|]).
    split; [by vm_compute|].
    intros H; vm_compute in H; discriminate.
Qed.

End Summary_rate.

(** ** Runs of the second variant and its history *)

Section Improved_runs.
Import Improved.

Lemma perform_all_counts (es : list (Q * action)) : ∀ a : app,
  session_invariant a →
  current_card_index (perform_all es a) = current_card_index a + grades es
  ∧ size (known_cards (perform_all es a))
    = size (known_cards a) + known_grades es.
Proof.
  induction es as [|[now e] es IH]; intros a Ha; [cbn; lia|].
  cbn [perform_all]. pose proof (session_invariant_perform now e a Ha) as Ha'.
  destruct (IH _ Ha') as [-> ->].
  destruct (perform_fields now e a) as [_ He].
  destruct e as [|[]]; destruct He as [-> ->]; cbn; try lia.
  rewrite size_union, size_singleton; [lia|].
  apply disjoint_singleton_r. intros Hin. apply Ha in Hin. lia.
Qed.

(** X6. In a session of the second variant the index is the number of
    grading calls made so far and the size of the known set the number of
    those that said "knew it", whatever was toggled in between. *)
Theorem index_counts_grades (now u : Q) (draw : nat → nat) (a0 : app)
    (es : list (Q * action)) :
  let a := perform_all es (start_study_session now u draw a0).1 in
  current_card_index a = grades es
  ∧ size (known_cards a) = known_grades es.
Proof.
  intros a.
  destruct (perform_all_counts es _ (session_invariant_start now u draw a0))
    as [Hi Hk].
  fold a in Hi, Hk. rewrite Hi, Hk.
  unfold start_study_session.
  match goal with |- context [show_study_card now ?b] =>
    destruct (show_study_card_fields now b) as (-> & -> & _) end.
  destruct (Qlt_le_dec u (1 # 2)); cbn; by rewrite size_empty.
Qed.

(** What [show_study_card] adds to the history. *)
Lemma show_study_card_history (now : Q) (a : app) :
  study_cards (show_study_card now a).1 = study_cards a
  ∧ current_deck (show_study_card now a).1 = current_deck a
  ∧ study_history (show_study_card now a).1
    = (if decide (length (study_cards a) ≤ current_card_index a)
       then match session_start_time a with
            | Some t0 =>
                study_history a
                ++ [HistoryEntry
                      match current_deck a with
                      | None | Some "" => "All Decks"
                      | Some d => d
                      end
                      (current_card_index a) (size (known_cards a))
                      (now - t0)%Q]
            | None => study_history a
            end
       else study_history a).
Proof.
  unfold show_study_card, finish_study_session.
  case_decide; [|done]. by destruct (session_start_time a).
Qed.

Lemma perform_history (now : Q) (e : action) (a : app) :
  study_cards (perform now e a).1 = study_cards a
  ∧ current_deck (perform now e a).1 = current_deck a
  ∧ study_history (perform now e a).1
    = (if decide (length (study_cards a)
                  ≤ current_card_index (perform now e a).1)
       then match session_start_time a with
            | Some t0 =>
                study_history a
                ++ [HistoryEntry
                      match current_deck a with
                      | None | Some "" => "All Decks"
                      | Some d => d
                      end
                      (current_card_index (perform now e a).1)
                      (size (known_cards (perform now e a).1))
                      (now - t0)%Q]
            | None => study_history a
            end
       else study_history a).
Proof.
  destruct (perform_fields now e a) as [_ He].
  destruct e as [|knew_it]; cbn [perform] in *.
  - destruct He as [-> ->]. unfold toggle_answer.
    destruct (show_study_card_history now (set_show_answer true a))
      as (-> & -> & ->). done.
  - destruct He as [-> ->]. unfold next_card.
    match goal with |- context [show_study_card now ?b] =>
      destruct (show_study_card_history now b) as (-> & -> & ->) end.
    by destruct knew_it.
Qed.

Lemma perform_all_snoc (es : list (Q * action)) (x : Q * action) :
  ∀ a, perform_all (es ++ [x]) a = (perform x.1 x.2 (perform_all es a)).1.
Proof.
  induction es as [|[t e] es IH]; intros a; [by destruct x|].
  simpl. apply IH.
Qed.

Lemma grades_snoc (es : list (Q * action)) (t : Q) (b : bool) :
  grades (es ++ [(t, Grade b)]) = S (grades es).
Proof.
  induction es as [|[t' [|b']] es IH]; cbn; by rewrite ?IH.
Qed.

(** The fields a run leaves alone, and the history of a run that has not
    reached the end of the list. *)
Lemma perform_all_before_end (es : list (Q * action)) : ∀ a : app,
  session_invariant a →
  current_card_index a + grades es < length (study_cards a) →
  study_cards (perform_all es a) = study_cards a
  ∧ current_deck (perform_all es a) = current_deck a
  ∧ session_start_time (perform_all es a) = session_start_time a
  ∧ study_history (perform_all es a) = study_history a.
Proof.
  induction es as [|[now e] es IH]; intros a Ha Hlt; [done|].
  cbn [perform_all].
  destruct (perform_fields now e a) as [Ht He].
  destruct (perform_history now e a) as (Hq & Hd & Hh).
  pose proof (session_invariant_perform now e a Ha) as Ha'.
  assert (Hi : current_card_index (perform now e a).1 + grades es
               = current_card_index a + grades ((now, e) :: es))
    by (destruct e; destruct He as [-> _]; cbn; lia).
  destruct (IH (perform now e a).1 Ha') as (-> & -> & -> & ->);
    [rewrite Hq; lia|].
  rewrite Hq, Hd, Ht, Hh. rewrite decide_False by lia. done.
Qed.

(** X7. A session over [N >= 1] cards that is run by calls of
    [toggle_answer] and [next_card] writes its history record at the
    [N]-th grading call and not before. While fewer grading calls were
    made these calls leave the history untouched, and "End Session", which
    calls [finish_study_session], appends one record, with as many cards
    studied as grading calls were made; the [N]-th grading call appends
    one record, with [N] cards studied. Either record has as many cards
    known as calls said "knew it", and the time since the start. *)
Theorem history_written_at_last_grade (now u : Q) (draw : nat → nat)
    (a0 : app) (es : list (Q * action)) :
  let a1 := (start_study_session now u draw a0).1 in
  let deck_name := match current_deck a0 with
                   | None | Some "" => "All Decks"
                   | Some d => d
                   end in
  0 < length (study_cards a0) →
  (grades es < length (study_cards a0) →
   study_history (perform_all es a1) = study_history a0
   ∧ ∀ t : Q,
       study_history (finish_study_session t (perform_all es a1)).1
       = study_history a0
         ++ [HistoryEntry deck_name (grades es) (known_grades es)
               (t - now)%Q])
  ∧ (S (grades es) = length (study_cards a0) →
     ∀ (t : Q) (b : bool),
       study_history (perform_all (es ++ [(t, Grade b)]) a1)
       = study_history a0
         ++ [HistoryEntry deck_name (length (study_cards a0))
               (known_grades (es ++ [(t, Grade b)])) (t - now)%Q]).
Proof.
  intros a1 deck_name HN.
  pose proof (session_invariant_start now u draw a0) as Ha1. fold a1 in Ha1.
  assert (Hstart : length (study_cards a1) = length (study_cards a0)
                   ∧ current_card_index a1 = 0
                   ∧ known_cards a1 = ∅
                   ∧ current_deck a1 = current_deck a0
                   ∧ session_start_time a1 = Some now
                   ∧ study_history a1 = study_history a0).
  { unfold a1, start_study_session.
    match goal with |- context [show_study_card now ?b] =>
      destruct (show_study_card_history now b) as (-> & -> & ->);
      destruct (show_study_card_fields now b) as (-> & -> & ->) end.
    destruct (Qlt_le_dec u (1 # 2)); cbn -[shuffle];
      rewrite ?length_shuffle; rewrite decide_False by lia; done. }
  destruct Hstart as (Hlen & Hi & Hk & Hd & Ht & Hh).
  split.
  - intros Hlt.
    destruct (perform_all_before_end es a1 Ha1) as (_ & Hd' & Ht' & Hh');
      [lia|].
    split; [by rewrite Hh'|]. intros t.
    destruct (perform_all_counts es a1 Ha1) as [Hidx Hknown].
    rewrite Hi in Hidx. rewrite Hk, size_empty in Hknown.
    unfold finish_study_session. rewrite Ht', Ht. cbn.
    by rewrite Hidx, Hknown, Hd', Hd, Hh', Hh.
  - intros Hlast t b.
    destruct (perform_all_before_end es a1 Ha1) as (Hq' & Hd' & Ht' & Hh');
      [lia|].
    destruct (perform_all_counts (es ++ [(t, Grade b)]) a1 Ha1)
      as [Hidx Hknown].
    rewrite Hi, grades_snoc in Hidx. rewrite Hk, size_empty in Hknown.
    rewrite perform_all_snoc in *. cbn [fst snd] in *.
    destruct (perform_history t (Grade b) (perform_all es a1))
      as (_ & _ & ->).
    rewrite Hidx, Hknown, Hq', Hd', Ht', Hh', Hlen, Hd, Ht, Hh.
    rewrite decide_True by lia. by rewrite Hlast.
Qed.

Lemma history_written_at_last_grade_witness :
  0 < length (study_cards
               (set_study_cards [two_plus_two; three_plus_three]
                  (improved_app [two_plus_two; three_plus_three])))
  ∧ (grades [(5%Q, Toggle); (9%Q, Grade true)] < 2
     ∧ study_history
         (perform_all [(5%Q, Toggle); (9%Q, Grade true)]
            (start_study_session 0 1 zero_draws
               (set_study_cards [two_plus_two; three_plus_three]
                  (improved_app [two_plus_two; three_plus_three]))).1)
       = []
     ∧ study_history
         (finish_study_session 12
            (perform_all [(5%Q, Toggle); (9%Q, Grade true)]
               (start_study_session 0 1 zero_draws
                  (set_study_cards [two_plus_two; three_plus_three]
                     (improved_app [two_plus_two; three_plus_three]))).1)).1
       = [HistoryEntry "All Decks" 1 1 (12 - 0)%Q])
  ∧ (S (grades [(5%Q, Toggle); (9%Q, Grade true)]) = 2
     ∧ study_history
         (perform_all
            ([(5%Q, Toggle); (9%Q, Grade true)] ++ [(20%Q, Grade false)])
            (start_study_session 0 1 zero_draws
               (set_study_cards [two_plus_two; three_plus_three]
                  (improved_app [two_plus_two; three_plus_three]))).1)
       = [HistoryEntry "All Decks" 2 1 (20 - 0)%Q]).
Proof.
  set (a0 := set_study_cards [two_plus_two; three_plus_three]
               (improved_app [two_plus_two; three_plus_three])).
  set (es := [(5%Q, Toggle); (9%Q, Grade true)]).
  assert (H : 0 < length (study_cards a0)) by (vm_compute; lia).
  assert (H1 : grades es < length (study_cards a0)) by (vm_compute; lia).
  assert (H2 : S (grades es) = length (study_cards a0)) by reflexivity.
  destruct (history_written_at_last_grade 0 1 zero_draws a0 es H)
    as [Hbefore Hlast].
  split; [exact H|]. split.
  - split; [exact H1|]. destruct (Hbefore H1) as [Hh Hend].
    split; [exact Hh | exact (Hend 12%Q)].
  - split; [exact H2 | exact (Hlast H2 20%Q false)].
Defined.

Lemma show_study_card_sound (now : Q) (a : app) :
  session_invariant a →
  Forall sound_record (study_history a) →
  Forall sound_record (study_history (show_study_card now a).1).
Proof.
  intros [Hk _] Hh.
  destruct (show_study_card_history now a) as (_ & _ & ->).
  case_decide; [|exact Hh]. destruct (session_start_time a); [|exact Hh].
  apply Forall_app. split; [exact Hh|]. constructor; [|constructor].
  unfold sound_record. cbn. by apply known_below_index_size.
Qed.

Lemma perform_sound (now : Q) (e : action) (a : app) :
  session_invariant a →
  Forall sound_record (study_history a) →
  Forall sound_record (study_history (perform now e a).1).
Proof.
  intros Ha Hh. pose proof (session_invariant_perform now e a Ha) as [Hk _].
  destruct (perform_history now e a) as (_ & _ & ->).
  case_decide; [|exact Hh]. destruct (session_start_time a); [|exact Hh].
  apply Forall_app. split; [exact Hh|]. constructor; [|constructor].
  unfold sound_record. cbn. by apply known_below_index_size.
Qed.

(** X8. Sessions only add sound records to the history: if every record
    reports no more known cards than studied ones before a session starts,
    so does every record after any run of the session. *)
Theorem sessions_keep_history_sound (now u : Q) (draw : nat → nat)
    (a0 : app) (es : list (Q * action)) :
  Forall sound_record (study_history a0) →
  Forall sound_record
    (study_history (perform_all es (start_study_session now u draw a0).1)).
Proof.
  intros Hh.
  assert (H1 : Forall sound_record
                 (study_history (start_study_session now u draw a0).1)).
  { unfold start_study_session. apply show_study_card_sound.
    - destruct (Qlt_le_dec u (1 # 2)); (split; [set_solver | by eexists]).
    - by destruct (Qlt_le_dec u (1 # 2)). }
  pose proof (session_invariant_start now u draw a0) as Ha1.
  revert H1 Ha1. generalize (start_study_session now u draw a0).1.
  induction es as [|[t e] es IH]; intros a H1 Ha1; [exact H1|].
  cbn [perform_all]. apply IH.
  - by apply perform_sound.
  - by apply session_invariant_perform.
Qed.

Lemma sessions_keep_history_sound_witness :
  Forall sound_record
    (study_history (set_study_cards [two_plus_two] (improved_app [])))
  ∧ Forall sound_record
      (study_history
         (perform_all [(1%Q, Toggle); (2%Q, Grade true)]
            (start_study_session 0 1 zero_draws
               (set_study_cards [two_plus_two] (improved_app []))).1)).
Proof.
  assert (H : Forall sound_record
                (study_history
                   (set_study_cards [two_plus_two] (improved_app []))))
    by constructor.
  split; [exact H|].
  exact (sessions_keep_history_sound 0 1 zero_draws _ _ H).
Defined.

Lemma Qsum_bounds (xs : list Q) :
  Forall (λ x, (0 <= x)%Q ∧ (x <= 100)%Q) xs →
  (0 <= Qsum xs)%Q
  ∧ (Qsum xs <= 100 * inject_Z (Z.of_nat (length xs)))%Q.
Proof.
  induction 1 as [|x xs [Hx0 Hx1] _ [IH0 IH1]].
  - split; [apply Qle_refl | done].
  - change (Qsum (x :: xs)) with (x + Qsum xs)%Q.
    change (length (x :: xs)) with (S (length xs)). split.
    + change 0%Q with (0 + 0)%Q. by apply Qplus_le_compat.
    + rewrite Nat2Z.inj_succ, <-Z.add_1_l, inject_Z_plus.
      rewrite Qmult_plus_distr_r. apply Qplus_le_compat; [|exact IH1].
      by rewrite Qmult_1_r.
Qed.

(** X9. Over a history of sound records the average accuracy that the
    history window shows lies between 0 and 100. *)
Theorem average_accuracy_bounds (a : app) (st : history_stats) :
  Forall sound_record (study_history a) →
  view_study_history a = Some st →
  (0 <= avg_accuracy st)%Q ∧ (avg_accuracy st <= 100)%Q.
Proof.
  intros Hh. unfold view_study_history.
  destruct (study_history a) as [|s h] eqn:Hhist; [done|].
  intros [= <-]. cbn [avg_accuracy].
  change (S (length h)) with (length (s :: h)).
  set (l := s :: h) in *.
  assert (Hacc : Forall (λ x, (0 <= x)%Q ∧ (x <= 100)%Q)
                   (session_accuracies l)).
  { unfold session_accuracies. apply Forall_fmap, Forall_forall.
    intros x [Hx Hin]%list_elem_of_filter. cbn.
    apply percentage_bounds; [|exact Hx].
    exact (proj1 (Forall_forall _ _) Hh x Hin). }
  destruct (Qsum_bounds _ Hacc) as [H0 H1].
  assert (Hcount : length (session_accuracies l) ≤ length l)
    by (unfold session_accuracies; rewrite length_fmap; apply length_filter).
  assert (Hpos : (0 < inject_Z (Z.of_nat (length l)))%Q).
  { change 0%Q with (inject_Z 0). rewrite <-Zlt_Qlt. cbn. lia. }
  split.
  - apply Qle_shift_div_l; [exact Hpos|]. by rewrite Qmult_0_l.
  - apply Qle_shift_div_r; [exact Hpos|].
    eapply Qle_trans; [exact H1|].
    apply Qmult_le_l; [done|]. rewrite <-Zle_Qle. lia.
Qed.

Lemma average_accuracy_bounds_witness :
  Forall sound_record
    (study_history
       (set_study_history [HistoryEntry "d" 2 1 60; HistoryEntry "d" 0 0 5]
          (improved_app [])))
  ∧ ∃ st,
      view_study_history
        (set_study_history [HistoryEntry "d" 2 1 60; HistoryEntry "d" 0 0 5]
           (improved_app [])) = Some st
      ∧ (0 <= avg_accuracy st)%Q ∧ (avg_accuracy st <= 100)%Q.
Proof.
  assert (H : Forall sound_record
                (study_history
                   (set_study_history
                      [HistoryEntry "d" 2 1 60; HistoryEntry "d" 0 0 5]
                      (improved_app []))))
    by (repeat constructor; unfold sound_record; cbn; lia).
  split; [exact H|]. eexists. split; [reflexivity|].
  exact (average_accuracy_bounds _ _ H eq_refl).
Defined.

End Improved_runs.

(** ** Dictionaries *)

Section PyDict_facts.
Context {V : Type}.
Implicit Types (d : list (string * V)) (k : string) (v : V).

Lemma get_set_eq k v d : PyDict.get k (PyDict.set k v d) = Some v.
Proof.
  induction d as [|[k' v'] d IH]; cbn; [by rewrite decide_True|].
  case_decide; cbn; [by rewrite decide_True | by rewrite decide_False].
Qed.

Lemma get_set_ne k k' v d :
  k ≠ k' → PyDict.get k' (PyDict.set k v d) = PyDict.get k' d.
Proof.
  intros Hne. induction d as [|[k0 v0] d IH]; cbn; [by rewrite decide_False|].
  case_decide; cbn; [subst; by rewrite !decide_False | by rewrite IH].
Qed.

Lemma get_del_eq k d : PyDict.get k (PyDict.del k d) = None.
Proof.
  unfold PyDict.del. induction d as [|[k' v'] d IH]; [done|].
  rewrite filter_cons. cbn. case_decide; [|exact IH].
  cbn. by rewrite decide_False.
Qed.

Lemma get_del_ne k k' d :
  k ≠ k' → PyDict.get k' (PyDict.del k d) = PyDict.get k' d.
Proof.
  intros Hne. unfold PyDict.del. induction d as [|[k0 v0] d IH]; [done|].
  rewrite filter_cons. cbn. case_decide as Hk; cbn.
  - by rewrite IH.
  - subst. by rewrite decide_False.
Qed.

Lemma mem_true k d : PyDict.mem k d = true ↔ k ∈ PyDict.keys d.
Proof.
  unfold PyDict.mem, PyDict.keys.
  induction d as [|[k' v'] d IH]; cbn; [by rewrite elem_of_nil|].
  rewrite elem_of_cons. case_decide as Hk.
  - subst. split; [by left | done].
  - rewrite IH. split; [by right|]. intros [->|Hin]; done.
Qed.

Lemma mem_false k d : PyDict.mem k d = false ↔ k ∉ PyDict.keys d.
Proof. rewrite <-mem_true. by destruct (PyDict.mem k d). Qed.

Lemma mem_get k d : PyDict.mem k d = true ↔ is_Some (PyDict.get k d).
Proof.
  unfold PyDict.mem.
  destruct (PyDict.get k d); split; (done || by eexists || by intros [? ?]).
Qed.

Lemma set_new k v d : PyDict.mem k d = false → PyDict.set k v d = d ++ [(k, v)].
Proof.
  unfold PyDict.mem. induction d as [|[k' v'] d IH]; cbn; [done|].
  case_decide; [done|]. intros Hm. by rewrite IH.
Qed.

Lemma keys_set_present k v d :
  PyDict.mem k d = true → PyDict.keys (PyDict.set k v d) = PyDict.keys d.
Proof.
  unfold PyDict.mem, PyDict.keys.
  induction d as [|[k' v'] d IH]; cbn; [done|].
  case_decide; cbn; [by subst|]. intros Hm. by rewrite IH.
Qed.

Lemma keys_del k d :
  PyDict.keys (PyDict.del k d) = filter (λ k', k' ≠ k) (PyDict.keys d).
Proof.
  unfold PyDict.del, PyDict.keys. induction d as [|[k' v'] d IH]; [done|].
  rewrite filter_cons, fmap_cons, filter_cons. cbn.
  case_decide; cbn; by rewrite IH.
Qed.

Lemma length_set_present k v d :
  PyDict.mem k d = true → length (PyDict.set k v d) = length d.
Proof.
  intros Hm. rewrite <-(length_fmap fst (PyDict.set k v d)).
  change (fst <$> PyDict.set k v d) with (PyDict.keys (PyDict.set k v d)).
  rewrite keys_set_present by done. apply length_fmap.
Qed.

Lemma get_last k v d :
  PyDict.mem k d = false → PyDict.get k (d ++ [(k, v)]) = Some v.
Proof.
  unfold PyDict.mem. induction d as [|[k' v'] d IH]; cbn.
  - by rewrite decide_True.
  - case_decide; [done | exact IH].
Qed.

Lemma set_last k v v' d :
  PyDict.mem k d = false → PyDict.set k v' (d ++ [(k, v)]) = d ++ [(k, v')].
Proof.
  unfold PyDict.mem. induction d as [|[k0 v0] d IH]; cbn.
  - by rewrite decide_True.
  - case_decide; [done|]. intros Hm. by rewrite IH.
Qed.

Lemma del_absent k d : PyDict.mem k d = false → PyDict.del k d = d.
Proof.
  unfold PyDict.mem, PyDict.del. induction d as [|[k0 v0] d IH]; [done|].
  rewrite filter_cons. cbn. destruct (decide (k0 = k)) as [->|Hne]; [done|].
  intros Hm. rewrite decide_True by done. by rewrite IH.
Qed.

Lemma del_last k v d :
  PyDict.mem k d = false → PyDict.del k (d ++ [(k, v)]) = d.
Proof.
  intros Hm. unfold PyDict.del. rewrite filter_app, filter_cons, filter_nil.
  cbn. rewrite decide_False by (intros H; by apply H).
  rewrite app_nil_r. by apply del_absent.
Qed.

End PyDict_facts.

(** ** Decks and their cards ([fc4.py]) *)

Section Fc4_store.
Import Fc4Store.

Lemma add_card_to_deck_present (now deck_name q ans : string) (a : app) :
  PyDict.mem deck_name (decks a) = true →
  ∃ a',
    add_card_to_deck now deck_name q ans a = (true, a')
    ∧ get_deck_cards a' deck_name
      = get_deck_cards a deck_name ++ [StoredCard q ans now]
    ∧ (∀ other, other ≠ deck_name →
         PyDict.get other (decks a') = PyDict.get other (decks a))
    ∧ PyDict.keys (decks a') = PyDict.keys (decks a)
    ∧ last_used_deck a' = last_used_deck a
    ∧ current_deck a' = current_deck a.
Proof.
  intros Hm. unfold add_card_to_deck, get_deck_cards.
  destruct (proj1 (mem_get _ _) Hm) as [d Hd]. rewrite Hd.
  eexists. split; [reflexivity|]. cbn.
  rewrite get_set_eq. split; [done|]. split.
  - intros other Hne. by apply get_set_ne.
  - split; [|done]. by apply keys_set_present.
Qed.

(** X10. [add_card_to_deck] refuses a deck that does not exist and changes
    nothing; on a deck that exists it puts the new card at the end of that
    deck and leaves the order of the decks, the cards of every other deck
    and the settings as they are. *)
Theorem add_card_to_deck_appends (now deck_name q ans : string) (a : app) :
  (PyDict.mem deck_name (decks a) = false →
   add_card_to_deck now deck_name q ans a = (false, a))
  ∧ (PyDict.mem deck_name (decks a) = true →
     ∃ a',
       add_card_to_deck now deck_name q ans a = (true, a')
       ∧ get_deck_cards a' deck_name
         = get_deck_cards a deck_name ++ [StoredCard q ans now]
       ∧ (∀ other, other ≠ deck_name →
            PyDict.get other (decks a') = PyDict.get other (decks a))
       ∧ PyDict.keys (decks a') = PyDict.keys (decks a)
       ∧ last_used_deck a' = last_used_deck a
       ∧ current_deck a' = current_deck a).
Proof.
  split; [|apply add_card_to_deck_present].
  unfold add_card_to_deck, PyDict.mem.
  by destruct (PyDict.get deck_name (decks a)).
Qed.

Lemma add_card_to_deck_appends_witness :
  PyDict.mem "d" (decks (create_deck "t0" "d" (App [] None None)).2) = true
  ∧ PyDict.mem "e" (decks (create_deck "t0" "d" (App [] None None)).2) = false
  ∧ add_card_to_deck "t1" "e" "2+2" "4"
      (create_deck "t0" "d" (App [] None None)).2
    = (false, (create_deck "t0" "d" (App [] None None)).2)
  ∧ ∃ a', add_card_to_deck "t1" "d" "2+2" "4"
            (create_deck "t0" "d" (App [] None None)).2 = (true, a')
          ∧ get_deck_cards a' "d" = [] ++ [StoredCard "2+2" "4" "t1"].
Proof.
  assert (H1 : PyDict.mem "d"
                 (decks (create_deck "t0" "d" (App [] None None)).2) = true)
    by reflexivity.
  assert (H2 : PyDict.mem "e"
                 (decks (create_deck "t0" "d" (App [] None None)).2) = false)
    by reflexivity.
  split; [exact H1|]. split; [exact H2|]. split.
  - exact (proj1 (add_card_to_deck_appends "t1" "e" "2+2" "4" _) H2).
  - destruct (proj2 (add_card_to_deck_appends "t1" "d" "2+2" "4" _) H1)
      as (a' & Ha' & Hc & _).
    exists a'. split; [exact Ha' | exact Hc].
Defined.

Lemma add_cards_spec (new : list (string * string * string))
    (deck_name : string) : ∀ a : app,
  PyDict.mem deck_name (decks a) = true →
  get_deck_cards (add_cards new deck_name a) deck_name
  = get_deck_cards a deck_name
    ++ ((λ c, StoredCard c.1.2 c.2 c.1.1) <$> new)
  ∧ PyDict.keys (decks (add_cards new deck_name a)) = PyDict.keys (decks a)
  ∧ (∀ other, other ≠ deck_name →
       PyDict.get other (decks (add_cards new deck_name a))
       = PyDict.get other (decks a))
  ∧ last_used_deck (add_cards new deck_name a) = last_used_deck a
  ∧ current_deck (add_cards new deck_name a) = current_deck a.
Proof.
  induction new as [|[[now q] ans] new IH]; intros a Hm.
  - cbn. by rewrite app_nil_r.
  - cbn [add_cards].
    destruct (add_card_to_deck_present now deck_name q ans a Hm)
      as (a' & -> & Hc & Ho & Hk & Hl & Hcur).
    cbn [snd].
    assert (Hm' : PyDict.mem deck_name (decks a') = true)
      by (apply mem_true; rewrite Hk; by apply mem_true).
    destruct (IH a' Hm') as (-> & -> & Ho' & -> & ->).
    rewrite Hc, Hk, Hl, Hcur, <-app_assoc. cbn.
    repeat split; try done.
    intros other Hne. by rewrite Ho', Ho.
Qed.

Lemma add_cards_last (new : list (string * string * string))
    (deck_name : string) : ∀ (a : app) (l : list (string * deck)) (d : deck),
  decks a = l ++ [(deck_name, d)] →
  PyDict.mem deck_name l = false →
  ∃ d', decks (add_cards new deck_name a) = l ++ [(deck_name, d')].
Proof.
  induction new as [|[[now q] ans] new IH]; intros a l d Hd Hm; [eauto|].
  cbn [add_cards]. unfold add_card_to_deck.
  rewrite Hd, get_last by done. cbn. eapply IH; [|exact Hm].
  cbn. by apply set_last.
Qed.

(** X11. The life of a deck: under a name that is not taken [create_deck]
    succeeds and the deck has no cards; the cards then added to it are the
    cards [get_deck_cards] gives, in the order of their addition; and
    [delete_deck] then succeeds and leaves the decks exactly as they were
    before the deck was created. *)
Theorem deck_life_cycle (now deck_name : string)
    (new : list (string * string * string)) (a : app) :
  PyDict.mem deck_name (decks a) = false →
  let a1 := (create_deck now deck_name a).2 in
  let a2 := add_cards new deck_name a1 in
  (create_deck now deck_name a).1 = true
  ∧ get_deck_cards a1 deck_name = []
  ∧ get_deck_cards a2 deck_name = (λ c, StoredCard c.1.2 c.2 c.1.1) <$> new
  ∧ (delete_deck deck_name a2).1 = true
  ∧ decks (delete_deck deck_name a2).2 = decks a.
Proof.
  intros Hm a1 a2.
  assert (Ha1 : create_deck now deck_name a
                = (true, App (decks a ++ [(deck_name, Deck [] now None 0 0)])
                           (last_used_deck a) (current_deck a))).
  { unfold create_deck. rewrite Hm. by rewrite set_new. }
  assert (Hm1 : PyDict.mem deck_name (decks a1) = true).
  { unfold a1. rewrite Ha1. cbn. apply mem_true. unfold PyDict.keys.
    rewrite fmap_app. apply elem_of_app. right. by apply list_elem_of_here. }
  assert (Hc1 : get_deck_cards a1 deck_name = []).
  { unfold a1, get_deck_cards, create_deck. rewrite Hm. cbn.
    by rewrite get_set_eq. }
  destruct (add_cards_spec new deck_name a1 Hm1) as (Hc2 & Hk2 & Ho2 & _).
  fold a2 in Hc2, Hk2, Ho2. rewrite Hc1 in Hc2.
  assert (Hm2 : PyDict.mem deck_name (decks a2) = true)
    by (apply mem_true; rewrite Hk2; by apply mem_true).
  split; [by rewrite Ha1|]. split; [exact Hc1|]. split; [exact Hc2|].
  unfold delete_deck. rewrite Hm2. cbn. split; [done|].
  destruct (add_cards_last new deck_name a1 (decks a) (Deck [] now None 0 0))
    as [d Hd]; [by unfold a1; rewrite Ha1 | exact Hm |].
  fold a2 in Hd. rewrite Hd. by apply del_last.
Qed.

Lemma deck_life_cycle_witness :
  PyDict.mem "d" (decks (App [] None None)) = false
  ∧ decks (delete_deck "d"
             (add_cards [("t1", "2+2", "4")] "d"
                (create_deck "t0" "d" (App [] None None)).2)).2
    = decks (App [] None None).
Proof.
  assert (H : PyDict.mem "d" (decks (App [] None None)) = false)
    by reflexivity.
  split; [exact H|].
  exact (proj2 (proj2 (proj2 (proj2
           (deck_life_cycle "t0" "d" [("t1", "2+2", "4")] _ H))))).
Defined.

End Fc4_store.

Section Fc4_store_decks.
Import Fc4Store.

(** X12. [delete_deck] refuses a deck that does not exist and changes
    nothing; otherwise the deck is gone, the other decks keep their place
    and their content, and the ["last_used_deck"] setting does not name
    the deleted deck afterwards. *)
Theorem delete_deck_removes (deck_name : string) (a : app) :
  (PyDict.mem deck_name (decks a) = false →
   delete_deck deck_name a = (false, a))
  ∧ (PyDict.mem deck_name (decks a) = true →
     ∃ a',
       delete_deck deck_name a = (true, a')
       ∧ PyDict.mem deck_name (decks a') = false
       ∧ get_deck_cards a' deck_name = []
       ∧ (∀ other, other ≠ deck_name →
            PyDict.get other (decks a') = PyDict.get other (decks a))
       ∧ PyDict.keys (decks a')
         = filter (λ k, k ≠ deck_name) (PyDict.keys (decks a))
       ∧ last_used_deck a' ≠ Some deck_name
       ∧ (last_used_deck a ≠ Some deck_name →
          last_used_deck a' = last_used_deck a)).
Proof.
  unfold delete_deck. split; intros Hm; rewrite Hm; [done|].
  eexists. split; [reflexivity|]. cbn.
  assert (Hg : PyDict.get deck_name (PyDict.del deck_name (decks a)) = None)
    by apply get_del_eq.
  split; [unfold PyDict.mem; by rewrite Hg|].
  split; [unfold get_deck_cards; cbn; by rewrite Hg|].
  split; [intros other Hne; by apply get_del_ne|].
  split; [apply keys_del|].
  split; case_decide; done.
Qed.

Lemma delete_deck_removes_witness :
  PyDict.mem "e" (decks (create_deck "t0" "d" (App [] (Some "d") None)).2)
    = false
  ∧ PyDict.mem "d" (decks (create_deck "t0" "d" (App [] (Some "d") None)).2)
    = true
  ∧ delete_deck "e" (create_deck "t0" "d" (App [] (Some "d") None)).2
    = (false, (create_deck "t0" "d" (App [] (Some "d") None)).2)
  ∧ ∃ a', delete_deck "d" (create_deck "t0" "d" (App [] (Some "d") None)).2
          = (true, a')
          ∧ last_used_deck a' ≠ Some "d".
Proof.
  assert (H1 : PyDict.mem "e"
                 (decks (create_deck "t0" "d" (App [] (Some "d") None)).2)
               = false) by reflexivity.
  assert (H2 : PyDict.mem "d"
                 (decks (create_deck "t0" "d" (App [] (Some "d") None)).2)
               = true) by reflexivity.
  split; [exact H1|]. split; [exact H2|]. split.
  - exact (proj1 (delete_deck_removes "e" _) H1).
  - destruct (proj2 (delete_deck_removes "d" _) H2)
      as (a' & Ha' & _ & _ & _ & _ & Hl & _).
    exists a'. split; [exact Ha' | exact Hl].
Defined.

Lemma keys_lookup_get {V} (d : list (string * V)) (i : nat) (k : string) :
  PyDict.keys d !! i = Some k → is_Some (PyDict.get k d).
Proof.
  intros Hi. apply mem_get, mem_true. by eapply list_elem_of_lookup_2.
Qed.

(** X13. Renaming the selected deck to a name that is not taken: the deck
    is stored under the new name, with the cards and the statistics it
    had, and no longer under the old one; every other deck is untouched;
    in the order of the decks the renamed deck is now the last one; and a
    ["last_used_deck"] setting that named the deck names it still. A name
    that is taken is refused and nothing changes. *)
Theorem rename_selected_deck_moves (strip : string → string)
    (i : nat) (rest : list nat) (old_name entered : string) (a : app) :
  PyDict.keys (decks a) !! i = Some old_name →
  old_name ≠ "" →
  entered ≠ "" →
  strip entered ≠ old_name →
  (PyDict.mem (strip entered) (decks a) = true →
   rename_selected_deck strip (i :: rest) (Some entered) a
   = Returns (a, ShowError ("Deck '" +:+ strip entered
                            +:+ "' already exists!")))
  ∧ (PyDict.mem (strip entered) (decks a) = false →
     ∃ a',
       rename_selected_deck strip (i :: rest) (Some entered) a
       = Returns (a', ShowInfo ("Deck renamed to '" +:+ strip entered
                                +:+ "'!"))
       ∧ PyDict.get (strip entered) (decks a')
         = PyDict.get old_name (decks a)
       ∧ PyDict.mem old_name (decks a') = false
       ∧ (∀ other, other ≠ old_name → other ≠ strip entered →
            PyDict.get other (decks a') = PyDict.get other (decks a))
       ∧ PyDict.keys (decks a')
         = filter (λ k, k ≠ old_name) (PyDict.keys (decks a))
           ++ [strip entered]
       ∧ (last_used_deck a = Some old_name →
          last_used_deck a' = Some (strip entered))
       ∧ (last_used_deck a ≠ Some old_name →
          last_used_deck a' = last_used_deck a)).
Proof.
  intros Hi Hold Hentered Hne.
  destruct (keys_lookup_get _ _ _ Hi) as [d Hd].
  assert (Hsel : get_selected_deck_name (i :: rest) a
                 = Returns (Some old_name)).
  { unfold get_selected_deck_name. rewrite Hi.
    destruct (decks a); [done|]. done. }
  assert (Hrun : rename_selected_deck strip (i :: rest) (Some entered) a
                 = if PyDict.mem (strip entered) (decks a)
                   then Returns (a, ShowError ("Deck '" +:+ strip entered
                                               +:+ "' already exists!"))
                   else Returns
                          (App (PyDict.set (strip entered) d
                                  (PyDict.del old_name (decks a)))
                               (if decide (last_used_deck a = Some old_name)
                                then Some (strip entered)
                                else last_used_deck a)
                               (current_deck a),
                           ShowInfo ("Deck renamed to '" +:+ strip entered
                                     +:+ "'!"))).
  { unfold rename_selected_deck. rewrite Hsel.
    destruct old_name; [done|]. destruct entered; [done|].
    rewrite decide_False by done. by rewrite Hd. }
  rewrite Hrun. split; intros Hm; rewrite Hm; [done|].
  assert (Hm' : PyDict.mem (strip entered) (PyDict.del old_name (decks a))
                = false).
  { apply mem_false. rewrite keys_del. intros [_ Hin]%list_elem_of_filter.
    by apply mem_false in Hm. }
  eexists. split; [reflexivity|]. cbn.
  split; [by rewrite get_set_eq|].
  split.
  { unfold PyDict.mem. rewrite get_set_ne by done. by rewrite get_del_eq. }
  split.
  { intros other H1 H2. rewrite get_set_ne by done. by apply get_del_ne. }
  split.
  { rewrite set_new by done. unfold PyDict.keys at 1. rewrite fmap_app.
    cbn. f_equal. apply keys_del. }
  split; intros Hl; case_decide; done.
Qed.

Lemma rename_selected_deck_moves_witness :
  ∃ a',
    rename_selected_deck id [0] (Some "e")
      (create_deck "t1" "f" (create_deck "t0" "d" (App [] (Some "d") None)).2).2
    = Returns (a', ShowInfo ("Deck renamed to '" +:+ id "e" +:+ "'!"))
    ∧ PyDict.keys (decks a') = ["f"; "e"]
    ∧ last_used_deck a' = Some "e".
Proof.
  set (a := (create_deck "t1" "f"
               (create_deck "t0" "d" (App [] (Some "d") None)).2).2).
  assert (H1 : PyDict.keys (decks a) !! 0 = Some "d") by reflexivity.
  assert (H2 : PyDict.mem (id "e") (decks a) = false) by reflexivity.
  assert (H3 : last_used_deck a = Some "d") by reflexivity.
  destruct (proj2 (rename_selected_deck_moves id 0 [] "d" "e" a H1
                     ltac:(discriminate) ltac:(discriminate)
                     ltac:(discriminate)) H2)
    as (a' & Ha' & _ & _ & _ & Hk & Hl & _).
  exists a'. split; [exact Ha'|]. split; [exact Hk | exact (Hl H3)].
Defined.

End Fc4_store_decks.

Section Fc4_store_import.
Import Fc4Store.

Lemma string_app_inj_last (c : Ascii.ascii) (s1 : string) : ∀ s2,
  s1 +:+ String c "" = s2 +:+ String c "" → s1 = s2.
Proof.
  induction s1 as [|a1 s1 IH]; intros [|a2 s2] H; cbn in H.
  - done.
  - injection H as _ H. by destruct s2.
  - injection H as _ H. by destruct s1.
  - injection H as -> H. f_equal. by apply IH.
Qed.

Lemma string_app_ne_self (s t : string) : t ≠ "" → s ≠ s +:+ t.
Proof.
  intros Ht. induction s as [|a s IH]; cbn.
  - by destruct t.
  - intros [= H]. by apply IH.
Qed.

Lemma numbered_inj (original : string) (i j : nat) :
  numbered original i = numbered original j → i = j.
Proof.
  unfold numbered. intros H. apply (inj (String.app original)) in H.
  apply (inj (String.app " (")) in H.
  apply string_app_inj_last in H. by apply (inj pretty) in H.
Qed.

Lemma free_name_Some (fuel : nat) (a : app) (original : string) :
  ∀ (counter : nat) (current chosen : string),
  free_name fuel a original counter current = Some chosen →
  PyDict.mem chosen (decks a) = false
  ∧ (PyDict.mem current (decks a) = false → chosen = current)
  ∧ (PyDict.mem current (decks a) = true →
     ∃ k, counter ≤ k ∧ chosen = numbered original k
          ∧ ∀ j, counter ≤ j < k →
              PyDict.mem (numbered original j) (decks a) = true).
Proof.
  induction fuel as [|fuel IH]; intros counter current chosen; [done|].
  cbn. destruct (PyDict.mem current (decks a)) eqn:Hm.
  - intros Hrec. destruct (IH _ _ _ Hrec) as (Hfree & Hfirst & Hlater).
    split; [exact Hfree|]. split; [done|]. intros _.
    destruct (PyDict.mem (numbered original counter) (decks a)) eqn:Hc.
    + destruct (Hlater eq_refl) as (k & Hk & -> & Hall).
      exists k. split; [lia|]. split; [done|]. intros j Hj.
      destruct (decide (j = counter)) as [->|]; [exact Hc|].
      apply Hall. lia.
    + exists counter. split; [lia|]. split; [by apply Hfirst|].
      intros j Hj. lia.
  - intros [= <-]. split; [exact Hm|]. split; done.
Qed.

Lemma free_name_None (fuel : nat) (a : app) (original : string) :
  ∀ (counter : nat) (current : string),
  free_name (S fuel) a original counter current = None →
  ∀ x, x ∈ current :: ((λ k, numbered original k) <$> seq counter fuel) →
       x ∈ PyDict.keys (decks a).
Proof.
  induction fuel as [|fuel IH]; intros counter current; cbn.
  - destruct (PyDict.mem current (decks a)) eqn:Hm; [|done].
    intros _ x ->%list_elem_of_singleton. by apply mem_true.
  - destruct (PyDict.mem current (decks a)) eqn:Hm; [|done].
    intros Hrec x [->|Hin]%elem_of_cons; [by apply mem_true|].
    apply (IH (counter + 1) (numbered original counter)); [exact Hrec|].
    by rewrite Nat.add_1_r.
Qed.

(** X14. [import_deck] always finds a name: it takes the name in the file
    when no deck has it, and otherwise the first of [name (1)],
    [name (2)], ... that no deck has, which takes at most as many tries as
    there are decks. The imported deck goes to the end under that name,
    and no deck that was there is replaced or changed. *)
Theorem import_deck_keeps_decks (deck_name : string) (deck_data : deck)
    (a : app) :
  ∃ chosen,
    import_deck deck_name deck_data a
    = Some (App (decks a ++ [(chosen, deck_data)])
                (last_used_deck a) (current_deck a),
            ShowInfo ("Imported deck '" +:+ chosen +:+ "' with "
                      +:+ pretty (length (cards deck_data)) +:+ " cards!"))
    ∧ PyDict.mem chosen (decks a) = false
    ∧ (PyDict.mem deck_name (decks a) = false → chosen = deck_name)
    ∧ (PyDict.mem deck_name (decks a) = true →
       ∃ k, 1 ≤ k ≤ length (decks a)
            ∧ chosen = numbered deck_name k
            ∧ ∀ j, 1 ≤ j < k →
                PyDict.mem (numbered deck_name j) (decks a) = true).
Proof.
  unfold import_deck.
  destruct (free_name (S (length (decks a))) a deck_name 1 deck_name)
    as [chosen|] eqn:Hfree.
  - destruct (free_name_Some _ _ _ _ _ _ Hfree) as (Hnew & Hfirst & Hlater).
    exists chosen. cbn. rewrite set_new by done.
    split; [done|]. split; [exact Hnew|]. split; [exact Hfirst|].
    intros Hm. destruct (Hlater Hm) as (k & Hk & -> & Hall).
    exists k. split; [|done]. split; [done|].
    (* the names before the chosen one are distinct names of decks *)
    assert (Hlen : length (deck_name
                           :: ((λ j, numbered deck_name j) <$> seq 1 (k - 1)))
                   ≤ length (PyDict.keys (decks a))).
    { apply submseteq_length, NoDup_submseteq.
      - constructor.
        + intros (j & Hj & _)%list_elem_of_fmap.
          revert Hj. by apply string_app_ne_self.
        + apply NoDup_fmap_2; [|apply NoDup_seq].
          intros i j. apply numbered_inj.
      - intros x [->|(j & -> & Hj)%list_elem_of_fmap]%elem_of_cons.
        + by apply mem_true.
        + apply elem_of_seq in Hj. apply mem_true, Hall. lia. }
    cbn in Hlen. unfold PyDict.keys in Hlen.
    rewrite !length_fmap, length_seq in Hlen. lia.
  - exfalso.
    pose proof (free_name_None _ _ _ _ _ Hfree) as Hall.
    assert (Hlen : length (deck_name
                           :: ((λ j, numbered deck_name j)
                               <$> seq 1 (length (decks a))))
                   ≤ length (PyDict.keys (decks a))).
    { apply submseteq_length, NoDup_submseteq; [|exact Hall].
      constructor.
      - intros (j & Hj & _)%list_elem_of_fmap.
        revert Hj. by apply string_app_ne_self.
      - apply NoDup_fmap_2; [|apply NoDup_seq].
        intros i j. apply numbered_inj. }
    cbn in Hlen. unfold PyDict.keys in Hlen.
    rewrite !length_fmap, length_seq in Hlen. lia.
Qed.

Lemma import_deck_keeps_decks_witness :
  ∃ a' r,
    import_deck "d" (Deck [] "t9" None 0 0)
      (App [("d", Deck [] "t0" None 0 0); ("d (1)", Deck [] "t1" None 0 0)]
           None None) = Some (a', r)
    ∧ PyDict.keys (decks a') = ["d"; "d (1)"; "d (2)"].
Proof.
  destruct (import_deck_keeps_decks "d" (Deck [] "t9" None 0 0)
              (App [("d", Deck [] "t0" None 0 0);
                    ("d (1)", Deck [] "t1" None 0 0)] None None))
    as (chosen & Himp & _).
  eexists _, _. split; [exact Himp|].
  vm_compute in Himp. injection Himp as Hc _. vm_compute. by rewrite <-Hc.
Defined.

End Fc4_store_import.

Section Fc4_store_settings.
Import Fc4Store.

Lemma mem_set {V} (k k' : string) (v : V) (d : list (string * V)) :
  PyDict.mem k d = true → PyDict.mem k (PyDict.set k' v d) = true.
Proof.
  unfold PyDict.mem. destruct (decide (k' = k)) as [->|Hne].
  - by rewrite get_set_eq.
  - by rewrite get_set_ne.
Qed.

Lemma mem_set_eq {V} (k : string) (v : V) (d : list (string * V)) :
  PyDict.mem k (PyDict.set k v d) = true.
Proof. unfold PyDict.mem. by rewrite get_set_eq. Qed.

Lemma mem_del {V} (k k' : string) (d : list (string * V)) :
  k' ≠ k → PyDict.mem k d = true → PyDict.mem k (PyDict.del k' d) = true.
Proof. intros Hne. unfold PyDict.mem. by rewrite get_del_ne. Qed.

Lemma get_selected_deck_name_exists (selection : list nat) (a : app)
    (deck_name : string) :
  get_selected_deck_name selection a = Returns (Some deck_name) →
  PyDict.mem deck_name (decks a) = true.
Proof.
  unfold get_selected_deck_name.
  destruct selection as [|i rest]; [done|].
  destruct (decks a) as [|item l] eqn:Hd; [done|]. rewrite <-Hd.
  destruct (PyDict.keys (decks a) !! i) as [k|] eqn:Hi; [|done].
  intros [= ->]. apply mem_get. by eapply keys_lookup_get.
Qed.

(** X15. The ["last_used_deck"] setting never dangles: if it names no deck
    or a deck of the store, it still does after any of the operations on
    decks and cards, whatever they are given. *)
Theorem last_used_deck_exists (strip : string → string) (a : app) :
  last_used_exists a →
  (∀ now deck_name, last_used_exists (create_deck now deck_name a).2)
  ∧ (∀ deck_name, last_used_exists (delete_deck deck_name a).2)
  ∧ (∀ now deck_name q ans,
       last_used_exists (add_card_to_deck now deck_name q ans a).2)
  ∧ (∀ now dialog, last_used_exists (create_new_deck strip now dialog a).1)
  ∧ (∀ selection a' r,
       open_selected_deck selection a = Returns (a', r) →
       last_used_exists a')
  ∧ (∀ selection a' r,
       study_selected_deck selection a = Returns (a', r) →
       last_used_exists a')
  ∧ (∀ selection dialog a' r,
       rename_selected_deck strip selection dialog a = Returns (a', r) →
       last_used_exists a')
  ∧ (∀ selection confirmed a' r,
       delete_selected_deck selection confirmed a = Returns (a', r) →
       last_used_exists a')
  ∧ (∀ deck_name deck_data a' r,
       import_deck deck_name deck_data a = Some (a', r) →
       last_used_exists a')
  ∧ (∀ now, last_used_exists (record_study now a)).
Proof.
  intros Ha.
  assert (Hcreate : ∀ now deck_name,
            last_used_exists (create_deck now deck_name a).2).
  { intros now deck_name. unfold create_deck.
    destruct (PyDict.mem deck_name (decks a)); [exact Ha|].
    unfold last_used_exists in *. cbn.
    destruct (last_used_deck a); [by apply mem_set | done]. }
  assert (Hdelete : ∀ deck_name,
            last_used_exists (delete_deck deck_name a).2).
  { intros deck_name. unfold delete_deck.
    destruct (PyDict.mem deck_name (decks a)); [|exact Ha].
    unfold last_used_exists in *. cbn. case_decide as Hl; [done|].
    destruct (last_used_deck a) as [l|]; [|done].
    apply mem_del; [congruence | exact Ha]. }
  split; [exact Hcreate|]. split; [exact Hdelete|]. split.
  { intros now deck_name q ans. unfold add_card_to_deck.
    destruct (PyDict.get deck_name (decks a)); [|exact Ha].
    unfold last_used_exists in *. cbn.
    destruct (last_used_deck a); [by apply mem_set | done]. }
  split.
  { intros now dialog. unfold create_new_deck.
    destruct dialog as [[|c s]|]; try exact Ha.
    destruct (strip (String c s)) as [|c' s'] eqn:Hs; [exact Ha|].
    specialize (Hcreate now (String c' s')).
    by destruct (create_deck now (String c' s') a) as [[] a']. }
  split.
  { intros selection a' r. unfold open_selected_deck.
    destruct (get_selected_deck_name selection a) as [[k|]|] eqn:Hsel;
      [|by intros [= <- _] | done].
    apply get_selected_deck_name_exists in Hsel.
    destruct k; [by intros [= <- _]|]. by intros [= <- _]. }
  split.
  { intros selection a' r. unfold study_selected_deck.
    destruct (get_selected_deck_name selection a) as [[k|]|] eqn:Hsel;
      [|by intros [= <- _] | done].
    destruct k; [by intros [= <- _]|].
    by destruct (get_deck_cards a _); intros [= <- _]. }
  split.
  { intros selection dialog a' r. unfold rename_selected_deck.
    destruct (get_selected_deck_name selection a) as [[old|]|] eqn:Hsel;
      [|by intros [= <- _] | done].
    destruct old as [|c s]; [by intros [= <- _]|].
    destruct dialog as [[|c' s']|]; try by intros [= <- _].
    case_decide; [by intros [= <- _]|].
    destruct (PyDict.mem (strip (String c' s')) (decks a));
      [by intros [= <- _]|].
    destruct (PyDict.get (String c s) (decks a)); [|done].
    intros [= <- _]. unfold last_used_exists in *. cbn.
    case_decide as Hl; [apply mem_set_eq|].
    destruct (last_used_deck a) as [l|]; [|done].
    apply mem_set, mem_del; [congruence | exact Ha]. }
  split.
  { intros selection confirmed a' r. unfold delete_selected_deck.
    destruct (get_selected_deck_name selection a) as [[k|]|] eqn:Hsel;
      [|by intros [= <- _] | done].
    destruct k as [|c s]; [by intros [= <- _]|].
    destruct confirmed; [|by intros [= <- _]].
    specialize (Hdelete (String c s)).
    by destruct (delete_deck (String c s) a) as [[] a'']; intros [= <- _]. }
  split.
  { intros deck_name deck_data a' r. unfold import_deck.
    destruct (free_name _ a deck_name 1 deck_name); [|done].
    intros [= <- _]. unfold last_used_exists in *. cbn.
    destruct (last_used_deck a); [by apply mem_set | done]. }
  intros now. unfold record_study.
  destruct (current_deck a); [|exact Ha].
  destruct (PyDict.get _ (decks a)); [|exact Ha].
  unfold last_used_exists in *. cbn.
  destruct (last_used_deck a); [by apply mem_set | done].
Qed.

Lemma last_used_deck_exists_witness :
  last_used_exists (App [("d", Deck [] "t0" None 0 0)] (Some "d") None)
  ∧ last_used_exists
      (delete_deck "d" (App [("d", Deck [] "t0" None 0 0)] (Some "d") None)).2.
Proof.
  assert (H : last_used_exists
                (App [("d", Deck [] "t0" None 0 0)] (Some "d") None))
    by reflexivity.
  split; [exact H|].
  exact (proj1 (proj2 (last_used_deck_exists id _ H)) "d").
Defined.

(** X16. A deck whose name is the empty string cannot be reached from the
    main menu: with it selected, "open", "study", "rename" and "delete"
    all answer that no deck is selected and change nothing. *)
Theorem empty_name_out_of_reach (strip : string → string) (i : nat)
    (rest : list nat) (a : app) :
  PyDict.keys (decks a) !! i = Some "" →
  open_selected_deck (i :: rest) a
  = Returns (a, ShowWarning "Please select a deck to open!")
  ∧ study_selected_deck (i :: rest) a
    = Returns (a, ShowWarning "Please select a deck to study!")
  ∧ (∀ dialog,
       rename_selected_deck strip (i :: rest) dialog a
       = Returns (a, ShowWarning "Please select a deck to rename!"))
  ∧ (∀ confirmed,
       delete_selected_deck (i :: rest) confirmed a
       = Returns (a, ShowWarning "Please select a deck to delete!")).
Proof.
  intros Hi.
  assert (Hsel : get_selected_deck_name (i :: rest) a = Returns (Some "")).
  { unfold get_selected_deck_name. rewrite Hi. by destruct (decks a). }
  unfold open_selected_deck, study_selected_deck, rename_selected_deck,
    delete_selected_deck. rewrite Hsel. done.
Qed.

Lemma empty_name_out_of_reach_witness :
  ∃ a r,
    import_deck "" (Deck [] "t0" None 0 0) (App [] None None) = Some (a, r)
    ∧ PyDict.keys (decks a) !! 0 = Some ""
    ∧ delete_selected_deck [0] true a
      = Returns (a, ShowWarning "Please select a deck to delete!").
Proof.
  eexists _, _. split; [reflexivity|].
  assert (H : PyDict.keys [("", Deck [] "t0" None 0 0)] !! 0 = Some "")
    by reflexivity.
  split; [exact H|].
  exact (proj2 (proj2 (proj2
           (empty_name_out_of_reach id 0 []
              (App [("", Deck [] "t0" None 0 0)] None None) H))) true).
Defined.

Lemma session_decks_lookup (a : app) (deck_name : string) :
  Fc4.decks (session a) !! deck_name
  = (λ d, to_card <$> cards d) <$> PyDict.get deck_name (decks a).
Proof.
  unfold session. cbn. induction (decks a) as [|[k d] l IH]; [done|].
  cbn. case_decide as Hk.
  - subst. by rewrite lookup_insert_eq.
  - by rewrite lookup_insert_ne.
Qed.

(** X17. A session reads the store: the cards that a sequential session
    of the current deck goes through are, in order, the stored cards of
    that deck; and after [add_card_to_deck] has added a card to it, the
    next session has one more entry, at the end, for the new card. *)
Theorem session_reads_store (a : app) (deck_name : string) :
  current_deck a = Some deck_name →
  Fc4.card_data <$> Fc4.study_cards (Fc4.start_sequential (session a))
  = to_card <$> get_deck_cards a deck_name
  ∧ ∀ now q ans a',
      add_card_to_deck now deck_name q ans a = (true, a') →
      Fc4.study_cards (Fc4.start_sequential (session a'))
      = Fc4.study_cards (Fc4.start_sequential (session a))
        ++ [Fc4.make_study_card (Some deck_name)
              (length (get_deck_cards a deck_name)) (Card q ans)].
Proof.
  intros Hcur.
  assert (Hread : ∀ b : app, current_deck b = Some deck_name →
            Fc4.study_cards (Fc4.start_sequential (session b))
            = imap (Fc4.make_study_card (Some deck_name))
                (to_card <$> get_deck_cards b deck_name)).
  { intros b Hb. unfold Fc4.start_sequential, Fc4.prepare_study_cards.
    cbn -[session].
    change (Fc4.get_deck_cards (Fc4.set_study_mode Fc4.sequential (session b))
              (Fc4.current_deck (session b)))
      with (Fc4.get_deck_cards (session b) (current_deck b)).
    change (Fc4.current_deck (session b)) with (current_deck b).
    rewrite Hb. unfold Fc4.get_deck_cards, get_deck_cards.
    rewrite session_decks_lookup.
    by destruct (PyDict.get deck_name (decks b)). }
  split.
  - rewrite (Hread a Hcur). apply make_study_card_data.
  - intros now q ans a' Hadd.
    assert (Hm : PyDict.mem deck_name (decks a) = true).
    { unfold add_card_to_deck in Hadd. unfold PyDict.mem.
      by destruct (PyDict.get deck_name (decks a)). }
    destruct (add_card_to_deck_present now deck_name q ans a Hm)
      as (a1 & Ha1 & Hc & _ & _ & _ & Hcur1).
    rewrite Ha1 in Hadd. injection Hadd as <-.
    rewrite (Hread a Hcur), (Hread a1) by (by rewrite Hcur1).
    rewrite Hc, fmap_app, imap_app. cbn.
    by rewrite length_fmap, Nat.add_0_r.
Qed.

Lemma session_reads_store_witness :
  current_deck
    (add_card_to_deck "t1" "d" "2+2" "4"
       (App [("d", Deck [] "t0" None 0 0)] None (Some "d"))).2 = Some "d"
  ∧ Fc4.card_data
      <$> Fc4.study_cards
            (Fc4.start_sequential
               (session (add_card_to_deck "t1" "d" "2+2" "4"
                           (App [("d", Deck [] "t0" None 0 0)] None
                              (Some "d"))).2))
    = [two_plus_two].
Proof.
  assert (H : current_deck
                (add_card_to_deck "t1" "d" "2+2" "4"
                   (App [("d", Deck [] "t0" None 0 0)] None (Some "d"))).2
              = Some "d") by reflexivity.
  split; [exact H|].
  exact (proj1 (session_reads_store _ "d" H)).
Defined.

End Fc4_store_settings.

(** ** Tags and the pooled session ([flashcard_app_improved.py]) *)

Section Improved_store.
Import ImprovedStore.

Lemma add_tags_spec (new : list string) : ∀ known : list string,
  NoDup known →
  NoDup (add_tags new known)
  ∧ (∃ more, add_tags new known = known ++ more)
  ∧ (∀ tag, tag ∈ add_tags new known ↔ tag ∈ known ∨ tag ∈ new).
Proof.
  unfold add_tags. induction new as [|t new IH]; intros known Hnd.
  - cbn. split; [done|]. split; [exists []; by rewrite app_nil_r|].
    intros tag. rewrite elem_of_nil. tauto.
  - cbn. case_decide as Ht.
    + destruct (IH known Hnd) as (Hnd' & Hmore & Hin).
      split; [exact Hnd'|]. split; [exact Hmore|].
      intros tag. rewrite Hin, elem_of_cons.
      split; [tauto|]. intros [?|[->|?]]; tauto.
    + assert (Hnd1 : NoDup (known ++ [t])).
      { apply NoDup_app. split; [done|]. split; [|apply NoDup_singleton].
        intros x Hx ->%list_elem_of_singleton. done. }
      destruct (IH _ Hnd1) as (Hnd' & [more Hmore] & Hin).
      split; [exact Hnd'|]. split.
      * exists (t :: more). by rewrite Hmore, <-app_assoc.
      * intros tag. rewrite Hin, elem_of_app, list_elem_of_singleton,
          elem_of_cons. tauto.
Qed.

(** X18. [add_card_to_deck] keeps the list of all tags free of repetitions:
    the tags known before stay where they are, every tag of the new card
    is in the list afterwards, and nothing else is. A deck that does not
    exist is refused and nothing changes. *)
Theorem add_card_to_deck_tags (now deck_name q ans q_img a_img : string)
    (tags : option (list string)) (a : app) :
  NoDup (data_tags a) →
  (PyDict.mem deck_name (decks a) = false →
   add_card_to_deck now deck_name q ans q_img a_img tags a = (false, a))
  ∧ (PyDict.mem deck_name (decks a) = true →
     ∃ a',
       add_card_to_deck now deck_name q ans q_img a_img tags a = (true, a')
       ∧ NoDup (data_tags a')
       ∧ (∃ more, data_tags a' = data_tags a ++ more)
       ∧ (∀ tag, tag ∈ data_tags a'
                 ↔ tag ∈ data_tags a ∨ tag ∈ default [] tags)
       ∧ (∃ d d', PyDict.get deck_name (decks a) = Some d
                  ∧ PyDict.get deck_name (decks a') = Some d'
                  ∧ cards d'
                    = cards d ++ [StoredCard q ans q_img a_img
                                    (default [] tags) now 0])).
Proof.
  intros Hnd. unfold add_card_to_deck, PyDict.mem.
  destruct (PyDict.get deck_name (decks a)) as [d|] eqn:Hd; split; try done.
  intros _. eexists. split; [reflexivity|]. cbn.
  assert (Htags : NoDup (match tags with
                         | None | Some [] => data_tags a
                         | Some tags => add_tags tags (data_tags a)
                         end)
                  ∧ (∃ more, match tags with
                             | None | Some [] => data_tags a
                             | Some tags => add_tags tags (data_tags a)
                             end = data_tags a ++ more)
                  ∧ (∀ tag, tag ∈ match tags with
                                   | None | Some [] => data_tags a
                                   | Some tags => add_tags tags (data_tags a)
                                   end
                            ↔ tag ∈ data_tags a ∨ tag ∈ default [] tags)).
  { destruct tags as [[|t ts]|]; cbn [default].
    - split; [done|]. split; [exists []; by rewrite app_nil_r|].
      intros tag. rewrite elem_of_nil. tauto.
    - by apply add_tags_spec.
    - split; [done|]. split; [exists []; by rewrite app_nil_r|].
      intros tag. rewrite elem_of_nil. tauto. }
  destruct Htags as (H1 & H2 & H3).
  split; [exact H1|]. split; [exact H2|]. split; [exact H3|].
  eexists _, _. split; [done|]. split; [apply get_set_eq | done].
Qed.

Lemma add_card_to_deck_tags_witness :
  NoDup (data_tags (App [("d", Deck [] "" "t0" None 0 0)] ["math"]))
  ∧ PyDict.mem "d" (decks (App [("d", Deck [] "" "t0" None 0 0)] ["math"]))
    = true
  ∧ ∃ a', add_card_to_deck "t1" "d" "2+2" "4" "" ""
            (Some ["sums"; "math"; "sums"])
            (App [("d", Deck [] "" "t0" None 0 0)] ["math"]) = (true, a')
          ∧ NoDup (data_tags a').
Proof.
  assert (H1 : NoDup (data_tags
                        (App [("d", Deck [] "" "t0" None 0 0)] ["math"])))
    by apply NoDup_singleton.
  assert (H2 : PyDict.mem "d"
                 (decks (App [("d", Deck [] "" "t0" None 0 0)] ["math"]))
               = true) by reflexivity.
  split; [exact H1|]. split; [exact H2|].
  destruct (proj2 (add_card_to_deck_tags "t1" "d" "2+2" "4" "" ""
                     (Some ["sums"; "math"; "sums"]) _ H1) H2)
    as (a' & Ha' & Hnd & _).
  exists a'. split; [exact Ha' | exact Hnd].
Defined.

Lemma length_all_cards (a : app) :
  length (all_cards a) = sum_list ((λ item, length (cards item.2)) <$> decks a).
Proof.
  unfold all_cards. induction (decks a) as [|item l IH]; [done|].
  cbn. rewrite length_app, length_fmap. by rewrite IH.
Qed.

(** X19. [study_all_decks] pools the decks: when no deck has a card it
    says so and leaves the session fields alone; otherwise the session
    that starts is over every card of every deck, as many entries as the
    decks have cards together, under no current deck, and it shows a
    card. *)
Theorem study_all_decks_pools (now u : Q) (draw : nat → nat) (a : app)
    (s : Improved.app) :
  (all_cards a = [] →
   study_all_decks now u draw a s = (s, Improved.NoCards))
  ∧ (all_cards a ≠ [] →
     Improved.study_cards (study_all_decks now u draw a s).1
     ≡ₚ (to_card ∘ snd) <$> all_cards a
     ∧ length (Improved.study_cards (study_all_decks now u draw a s).1)
       = sum_list ((λ item, length (cards item.2)) <$> decks a)
     ∧ Improved.current_deck (study_all_decks now u draw a s).1 = None
     ∧ ∃ c, (study_all_decks now u draw a s).2
            = Improved.StudyScreen (Some c) false
                [Improved.ShowAnswer; Improved.EndSession]).
Proof.
  unfold study_all_decks. split; intros Hall.
  - by rewrite Hall.
  - destruct (all_cards a) as [|c0 l] eqn:Hcs; [done|]. rewrite <-Hcs.
    set (pool := (to_card ∘ snd) <$> all_cards a).
    assert (Hpool : length pool = length (all_cards a))
      by apply length_fmap.
    assert (Hpos : 0 < length pool) by (rewrite Hpool, Hcs; cbn; lia).
    unfold Improved.start_study_session, Improved.show_study_card.
    destruct (Qlt_le_dec u (1 # 2)); cbn -[shuffle].
    + rewrite decide_False by (rewrite length_shuffle; lia). cbn -[shuffle].
      split; [apply shuffle_Permutation|].
      split; [by rewrite length_shuffle, Hpool, length_all_cards|].
      split; [done|].
      destruct (shuffle draw pool) as [|c l'] eqn:Hsh; [|by eexists].
      apply (f_equal length) in Hsh. rewrite length_shuffle in Hsh.
      cbn in Hsh. lia.
    + rewrite decide_False by lia. cbn.
      split; [done|]. split; [by rewrite Hpool, length_all_cards|].
      split; [done|].
      destruct pool as [|c l']; [cbn in Hpos; lia | by eexists].
Qed.

Lemma study_all_decks_pools_witness :
  all_cards (App [] []) = []
  ∧ study_all_decks 0 1 zero_draws (App [] []) (improved_app [])
    = (improved_app [], Improved.NoCards)
  ∧ all_cards
      (App [("d", Deck [StoredCard "2+2" "4" "" "" [] "t1" 0] "" "t0" None 0 0)]
           []) ≠ []
  ∧ length (Improved.study_cards
      (study_all_decks 0 1 zero_draws
         (App [("d", Deck [StoredCard "2+2" "4" "" "" [] "t1" 0] "" "t0"
                       None 0 0)] [])
         (improved_app [])).1)
    = sum_list [1].
Proof.
  assert (H1 : all_cards (App [] []) = []) by reflexivity.
  assert (H2 : all_cards
                 (App [("d", Deck [StoredCard "2+2" "4" "" "" [] "t1" 0] ""
                               "t0" None 0 0)] []) ≠ [])
    by (vm_compute; discriminate).
  split; [exact H1|]. split.
  - exact (proj1 (study_all_decks_pools 0 1 zero_draws _ _) H1).
  - split; [exact H2|].
    exact (proj1 (proj2 (proj2 (study_all_decks_pools 0 1 zero_draws _
                                  (improved_app [])) H2))).
Defined.

End Improved_store.

(** ** Editing and searching cards *)

Section Fc4_cards.
Import Fc4Store Fc4Cards.

Lemma with_cards_get (cs : list stored_card) (deck_name : string) (d : deck)
    (a : app) :
  get_deck_cards (with_cards cs deck_name d a) deck_name = cs
  ∧ (∀ other, other ≠ deck_name →
       PyDict.get other (decks (with_cards cs deck_name d a))
       = PyDict.get other (decks a))
  ∧ (PyDict.mem deck_name (decks a) = true →
     PyDict.keys (decks (with_cards cs deck_name d a)) = PyDict.keys (decks a)).
Proof.
  unfold with_cards, get_deck_cards. cbn. rewrite get_set_eq.
  split; [done|]. split.
  - intros other Hne. by apply get_set_ne.
  - apply keys_set_present.
Qed.



(** X21. Saving an edited card changes exactly that card: its question and
    answer become the stripped texts, its creation time stays, every other
    card of the deck and every other deck is as before, and opening the
    editor on the card again shows what was saved. When a text strips to
    nothing, a warning is shown and nothing changes. *)
Theorem save_changes_updates_one (strip : string → string)
    (deck_name : string) (card_index : nat) (question_text answer_text : string)
    (a : app) (c : stored_card) :
  get_deck_cards a deck_name !! card_index = Some c →
  (strip question_text = "" ∨ strip answer_text = "" →
   save_changes strip deck_name card_index question_text answer_text a
   = Returns (a, ShowWarning "Both question and answer are required!"))
  ∧ (strip question_text ≠ "" → strip answer_text ≠ "" →
     ∃ a',
       save_changes strip deck_name card_index question_text answer_text a
       = Returns (a', ShowInfo "Card updated successfully!")
       ∧ edit_single_deck_card deck_name card_index a'
         = inl (StoredCard (strip question_text) (strip answer_text)
                  (created c))
       ∧ length (get_deck_cards a' deck_name)
         = length (get_deck_cards a deck_name)
       ∧ (∀ j, j ≠ card_index →
            get_deck_cards a' deck_name !! j = get_deck_cards a deck_name !! j)
       ∧ (∀ other, other ≠ deck_name →
            PyDict.get other (decks a') = PyDict.get other (decks a))
       ∧ PyDict.keys (decks a') = PyDict.keys (decks a)).
Proof.
  intros Hc. unfold save_changes. split.
  - intros [-> | ->]; [done|]. by destruct (strip question_text).
  - intros Hq Ha.
    destruct (strip question_text) as [|q0 q] eqn:Eq; [done|].
    destruct (strip answer_text) as [|a0 ans] eqn:Ea; [done|].
    unfold deck_cards, edit_single_deck_card. unfold get_deck_cards in *.
    destruct (PyDict.get deck_name (decks a)) as [d|] eqn:Hd; [|done].
    rewrite Hc. eexists. split; [reflexivity|].
    match goal with |- context [with_cards ?cs deck_name d a] =>
      destruct (with_cards_get cs deck_name d a) as (Hget & Hother & Hkeys)
    end.
    unfold get_deck_cards in Hget. rewrite Hget.
    pose proof (lookup_lt_Some _ _ _ Hc) as Hlt.
    split; [by rewrite list_lookup_insert_eq|].
    split; [apply length_insert|].
    split; [intros j Hj; by apply list_lookup_insert_ne|].
    split; [exact Hother|].
    apply Hkeys, mem_get. by rewrite Hd.
Qed.

Lemma save_changes_updates_one_witness :
  get_deck_cards
    (add_cards [("t1", "2+2", "5")] "d"
       (create_deck "t0" "d" (App [] None None)).2) "d" !! 0
  = Some (StoredCard "2+2" "5" "t1")
  ∧ ∃ a',
      save_changes id "d" 0 "2+2" "4"
        (add_cards [("t1", "2+2", "5")] "d"
           (create_deck "t0" "d" (App [] None None)).2)
      = Returns (a', ShowInfo "Card updated successfully!")
      ∧ edit_single_deck_card "d" 0 a' = inl (StoredCard "2+2" "4" "t1").
Proof.
  set (a := add_cards [("t1", "2+2", "5")] "d"
              (create_deck "t0" "d" (App [] None None)).2).
  assert (H : get_deck_cards a "d" !! 0 = Some (StoredCard "2+2" "5" "t1"))
    by reflexivity.
  split; [exact H|].
  destruct (proj2 (save_changes_updates_one id "d" 0 "2+2" "4" a _ H)
              ltac:(discriminate) ltac:(discriminate))
    as (a' & Ha' & He & _).
  exists a'. split; [exact Ha' | exact He].
Defined.

End Fc4_cards.

Section Improved_search.
Import ImprovedStore ImprovedSearch.

(** X22. The results of [search_cards] are exactly the cards that match:
    a triple of deck name, index and card is reported if and only if some
    deck of that name has that card at that index and the lowered query
    occurs in the lowered question, in the lowered answer or in a lowered
    tag of the card. *)
Theorem search_results_exact (lower : string → string) (query : string)
    (a : app) (deck_name : string) (i : nat) (card : stored_card) :
  (deck_name, i, card) ∈ search_results lower query a
  ↔ ∃ d, (deck_name, d) ∈ decks a
         ∧ cards d !! i = Some card
         ∧ (contains (lower query) (lower (question card)) = true
            ∨ contains (lower query) (lower (answer card)) = true
            ∨ ∃ tag, tag ∈ tags card
                     ∧ contains (lower query) (lower tag) = true).
Proof.
  unfold search_results. rewrite list_elem_of_bind.
  assert (Hmatch : ∀ c, matches lower (lower query) c = true
            ↔ contains (lower query) (lower (question c)) = true
              ∨ contains (lower query) (lower (answer c)) = true
              ∨ ∃ tag, tag ∈ tags c
                       ∧ contains (lower query) (lower tag) = true).
  { intros c. unfold matches. rewrite !orb_true_iff, existsb_exists.
    setoid_rewrite <-list_elem_of_In. tauto. }
  split.
  - intros ([k d] & Hin & Hd). cbn in Hin.
    apply list_elem_of_omap in Hin as ([j c] & Hjc & Hsome).
    apply list_elem_of_lookup in Hjc as [n Hn].
    rewrite list_lookup_imap in Hn.
    destruct (cards d !! n) as [c'|] eqn:Hc'; [|done].
    cbn in Hn, Hsome. injection Hn as <- <-.
    destruct (matches lower (lower query) c') eqn:Hm; [|done].
    injection Hsome as <- <- <-.
    exists d. split; [exact Hd|]. split; [exact Hc'|]. by apply Hmatch.
  - intros (d & Hd & Hc & Hm). exists (deck_name, d). split; [|exact Hd].
    cbn. apply list_elem_of_omap. exists (i, card). split.
    + apply list_elem_of_lookup. exists i.
      rewrite list_lookup_imap, Hc. done.
    + cbn. apply Hmatch in Hm. by rewrite Hm.
Qed.

End Improved_search.
